(** * Microactivity classification engine of ics-unisg/mmpmod

    A shallow embedding of [microactivity_detector.py] (class
    [MicroactivityDetector]) and of [model_inference] from [ml_inference.py].

    Python floats and numpy scalars (one type here) are read through the
    interface [PyNum]: every definition of the model is written once over an
    arbitrary implementation of the arithmetic, and is run on IEEE binary64
    (Rocq's primitive floats, instance [binary64]).  The reals (instance
    [exact]) are the arithmetic without rounding.  Python exceptions are the
    [None] of the option monad.  The YOLO model and [cv2.imread] are
    external: a frame is what the program reads of the image and of the
    model's result on it. *)

From Stdlib Require Import ZArith List String Ascii Bool Lia Permutation.
From Stdlib Require Import Floats.
From Stdlib Require Import Reals Lra.
Import ListNotations.

Set Implicit Arguments.

(** ** Python numbers *)

Declare Scope py_scope.
Delimit Scope py_scope with py.

Class PyNum (F : Type) : Type := {
  of_Z : Z -> F;                (* float(n) of a Python int *)
  fadd : F -> F -> F;
  fsub : F -> F -> F;
  fmul : F -> F -> F;
  fdiv : F -> F -> F;
  fsqrt : F -> F;               (* x ** 0.5, np.sqrt *)
  flt : F -> F -> bool;         (* x < y *)
  fle : F -> F -> bool;         (* x <= y *)
  pyround : F -> nat -> F;      (* round(x, ndigits) *)
  pyround_zero : forall ndigits, pyround (of_Z 0) ndigits = of_Z 0
}.

Infix "+" := fadd : py_scope.
Infix "-" := fsub : py_scope.
Infix "*" := fmul : py_scope.
Infix "/" := fdiv : py_scope.
Infix "<?" := flt : py_scope.
Infix "<=?" := fle : py_scope.

(** The decimal literal [n / 10^k]: [dec 5 2] is [0.05], [dec 1 6] is [1e-6].
    On binary64 the division of two exactly represented integers is rounded
    to nearest, as the literal is. *)
Definition dec {F} `{PyNum F} (n : Z) (k : nat) : F :=
  (of_Z n / of_Z (10 ^ Z.of_nat k))%py.

(** ** The option monad for Python exceptions *)

Definition obind {A B} (m : option A) (k : A -> option B) : option B :=
  match m with
  | Some a => k a
  | None => None
  end.

Notation "x <- m ;; k" := (obind m (fun x => k))
  (at level 61, m at next level, right associativity).
Notation "' pat <- m ;; k" := (obind m (fun x => match x with pat => k end))
  (at level 61, pat pattern, m at next level, right associativity).

(** [for x in l: st = step(st, x)], stopping at the first exception. *)
Fixpoint ofold {A S} (step : S -> A -> option S) (l : list A) (st : S) : option S :=
  match l with
  | [] => Some st
  | x :: l' => st' <- step st x ;; ofold step l' st'
  end.

(** ** Python dicts with string keys

    A Python dict keeps its keys in insertion order; assigning to a present
    key keeps the key's place.  [Counter.most_common] reads that order. *)

Module Dict.

Definition t (V : Type) : Type := list (string * V).

Definition empty {V} : t V := [].

Fixpoint get {V} (k : string) (d : t V) : option V :=
  match d with
  | [] => None
  | (k', v) :: d' => if String.eqb k k' then Some v else get k d'
  end.

(** [d[k] = v] *)
Fixpoint set {V} (k : string) (v : V) (d : t V) : t V :=
  match d with
  | [] => [(k, v)]
  | (k', v') :: d' =>
      if String.eqb k k' then (k, v) :: d' else (k', v') :: set k v d'
  end.

(** [k in d] *)
Definition mem {V} (k : string) (d : t V) : bool :=
  match get k d with
  | Some _ => true
  | None => false
  end.

(** [d.get(k, default)] *)
Definition get_or {V} (k : string) (default : V) (d : t V) : V :=
  match get k d with
  | Some v => v
  | None => default
  end.

Definition keys {V} (d : t V) : list string := map fst d.

End Dict.

(** ** Strings: [str.lower] on ASCII class names *)

Definition lower_ascii (c : ascii) : ascii :=
  let n := nat_of_ascii c in
  if (65 <=? n)%nat && (n <=? 90)%nat then ascii_of_nat (n + 32) else c.

Fixpoint lower (s : string) : string :=
  match s with
  | EmptyString => EmptyString
  | String c s' => String (lower_ascii c) (lower s')
  end.

(** [self.NAME_SYNONYMS] *)
Definition NAME_SYNONYMS : list (string * list string) :=
  [ ("syringe", ["white and blue syringe"; "syringe"; "blue-white syringe"]);
    ("gloves", ["white gloves"; "gloves"]);
    ("training arm", ["orange arm"; "training arm"; "arm"]);
    ("rubber band", ["yellow rubber band"; "rubber band"; "tourniquet"]);
    ("disinfectant wipe",
      ["disinfectant wipe"; "white wipe"; "wipe"; "sponge";
       "gauze"; "cotton"; "cotton pad"; "alcohol pad";
       "swab"; "swab pad"; "pad"; "towel"]) ]%string.

(** [self.raw2canon = {s.lower(): canon for canon, syns in
    self.NAME_SYNONYMS.items() for s in syns}] *)
Definition raw2canon : Dict.t string :=
  fold_left
    (fun d '(canon, syns) =>
       fold_left (fun d s => Dict.set (lower s) canon d) syns d)
    NAME_SYNONYMS Dict.empty.

(** [self.raw2canon.get(cname, cname)] *)
Definition canonical (cname : string) : string :=
  Dict.get_or cname cname raw2canon.

(** ** Masks: uint8 images, pixels in row-major order *)

Definition mask : Type := list Z.

Fixpoint map2 {A B C} (f : A -> B -> C) (l : list A) (l' : list B) : list C :=
  match l, l' with
  | a :: l, b :: l' => f a b :: map2 f l l'
  | _, _ => []
  end.

(** [cv2.bitwise_and], [cv2.bitwise_or] on two masks of one shape *)
Definition bitwise_and (a b : mask) : mask := map2 Z.land a b.
Definition bitwise_or (a b : mask) : mask := map2 Z.lor a b.

(** [np.count_nonzero] *)
Definition count_nonzero (m : mask) : Z :=
  Z.of_nat (List.length (filter (fun p => negb (p =? 0)%Z) m)).

(** ** [collections.Counter]

    [Counter(acts)] counts in a dict, [for elem in acts: self[elem] =
    self.get(elem, 0) + 1].  [most_common(1)] is [heapq.nlargest(1, items,
    key=itemgetter(1))], which for [n = 1] is [max(items, key=...)]: the first
    item, in the dict's order, whose count no later item exceeds. *)

Definition Counter (acts : list string) : Dict.t nat :=
  fold_left (fun d elem => Dict.set elem (Dict.get_or elem 0 d + 1) d) acts Dict.empty.

Fixpoint max_by_count (best : string * nat) (items : list (string * nat))
    : string * nat :=
  match items with
  | [] => best
  | item :: items' =>
      max_by_count (if snd best <? snd item then item else best) items'
  end.

Definition most_common_1 (c : Dict.t nat) : list (string * nat) :=
  match c with
  | [] => []
  | item :: items => [max_by_count item items]
  end.

(** ** The detector's data *)

Section Model.

Context {F : Type} `{PyNum F}.

Local Open Scope string_scope.
Local Open Scope py_scope.

(** A box [b] in xyxy form; [b0 b] is [b[0]]. *)
Record Box : Type := mkBox { b0 : F; b1 : F; b2 : F; b3 : F }.

(** The first result of the YOLO model on a frame (external): [res.boxes.cls],
    [res.boxes.xyxy], [res.boxes.conf] and [res.masks.data]; [masks] is
    [None] when [res] has no attribute [masks] or it is [None]. *)
Record Results : Type := mkResults {
  boxes_cls : list nat;
  boxes_xyxy : list Box;
  boxes_conf : list F;
  masks : option (list (list F))
}.

(** What [_process_single_frame] reads of a frame that [cv2.imread]
    returned: [frame.shape] and the model's result on it. *)
Record Frame : Type := mkFrame {
  shape_H : Z;
  shape_W : Z;
  detect : Results
}.

(** [{"activity": ..., "confidence": ...}] *)
Record Result : Type := mkResult { activity : string; confidence : F }.

(** What [model_inference] returns: a result dict, [{"error": msg}], or
    [None] when it falls off its end. *)
Inductive Response : Type :=
| Answer (r : Result)
| Error (msg : string)
| NoResponse.

(** [self.model.names] (part of the trained model, external) *)
Variable names : nat -> string.

(** ** Helper functions *)

(** The builtins [max(a, b)] and [min(a, b)]: the first argument is kept
    unless the second is strictly greater (smaller). *)
Definition py_max (a b : F) : F := if a <? b then b else a.
Definition py_min (a b : F) : F := if b <? a then b else a.

Definition compute_iou (a b : Box) : F :=
  let xA := py_max (b0 a) (b0 b) in
  let yA := py_max (b1 a) (b1 b) in
  let xB := py_min (b2 a) (b2 b) in
  let yB := py_min (b3 a) (b3 b) in
  let inter := py_max (of_Z 0) (xB - xA) * py_max (of_Z 0) (yB - yA) in
  if inter <=? of_Z 0 then of_Z 0
  else
    let areaA := (b2 a - b0 a) * (b3 a - b1 a) in
    let areaB := (b2 b - b0 b) * (b3 b - b1 b) in
    inter / (areaA + areaB - inter + dec 1 6).

Definition bbox_center (b : Box) : F * F :=
  ((b0 b + b2 b) * dec 5 1, (b1 b + b3 b) * dec 5 1).

Definition fused_iou (mask_a mask_b : option mask) (box_a box_b : Box)
    (alpha : F) : F :=
  let iou_mask :=
    match mask_a, mask_b with
    | Some mask_a, Some mask_b =>
        let inter := bitwise_and mask_a mask_b in
        let inter_area := count_nonzero inter in
        if (inter_area =? 0)%Z then of_Z 0
        else
          let union_area :=
            (count_nonzero mask_a + count_nonzero mask_b - inter_area)%Z in
          of_Z inter_area / (of_Z union_area + dec 1 6)
    | _, _ => of_Z 0
    end in
  let iou_box := compute_iou box_a box_b in
  alpha * iou_mask + (of_Z 1 - alpha) * iou_box.

(** The default [alpha=0.7] of [fused_iou] *)
Definition alpha_default : F := dec 7 1.

(** ** numpy reductions *)

Definition len {A} (l : list A) : Z := Z.of_nat (List.length l).

(** [np.sum]: the elements added from left to right, from 0 (the order of
    numpy's summation on fewer than 8 elements) *)
Definition np_sum (xs : list F) : F := fold_left fadd xs (of_Z 0).

(** [np.mean]: the sum of the elements divided by their number *)
Definition np_mean (xs : list F) : F := np_sum xs / of_Z (len xs).

(** [np.std], the population standard deviation:
    [sqrt(mean((x - mean(x)) ** 2))] *)
Definition np_std (xs : list F) : F :=
  let arrmean := np_mean xs in
  let x := map (fun v => v - arrmean) xs in
  let x := map (fun v => v * v) x in
  fsqrt (np_sum x / of_Z (len xs)).

(** [np.minimum] on scalars: a NaN first argument is returned as it is. *)
Definition np_minimum (a b : F) : F :=
  if negb (a <=? a) then a else if a <? b then a else b.

Definition np_maximum (a b : F) : F :=
  if negb (a <=? a) then a else if b <? a then a else b.

(** [np.min]: ValueError on an empty sequence *)
Definition np_min (xs : list F) : option F :=
  match xs with
  | [] => None
  | x :: xs' => Some (fold_left np_minimum xs' x)
  end.

(** [np.clip(x, lo, hi)] is [np.minimum(np.maximum(x, lo), hi)] *)
Definition np_clip (x lo hi : F) : F := np_minimum (np_maximum x lo) hi.

(** ** Grouping the detections by canonical class name (lines 173-183) *)

Record ByClass : Type := mkByClass {
  mask_by_class : Dict.t (list mask);
  box_by_class : Dict.t (list Box);
  conf_by_class : Dict.t (list F)
}.

Fixpoint zip4 {A B C D} (la : list A) (lb : list B) (lc : list C)
    (ld : list D) : list (A * B * C * D) :=
  match la, lb, lc, ld with
  | a :: la, b :: lb, c :: lc, d :: ld => (a, b, c, d) :: zip4 la lb lc ld
  | _, _, _, _ => []
  end.

(** [(m > 0.5).astype(np.uint8) * 255] *)
Definition binarize (m : list F) : mask :=
  map (fun p => if dec 5 1 <? p then 255%Z else 0%Z) m.

(** One turn of the grouping loop.  [d[cname].append(x)] on a missing key
    is a KeyError. *)
Definition group_step (st : ByClass) (item : string * list F * Box * F)
    : option ByClass :=
  let '(cname, m, b, conf) := item in
  let cname := canonical cname in
  let st :=
    if negb (Dict.mem cname (mask_by_class st)) then
      {| mask_by_class := Dict.set cname [] (mask_by_class st);
         box_by_class := Dict.set cname [] (box_by_class st);
         conf_by_class := Dict.set cname [] (conf_by_class st) |}
    else st in
  ms <- Dict.get cname (mask_by_class st) ;;
  bs <- Dict.get cname (box_by_class st) ;;
  cs <- Dict.get cname (conf_by_class st) ;;
  Some {| mask_by_class := Dict.set cname (ms ++ [binarize m])%list (mask_by_class st);
          box_by_class := Dict.set cname (bs ++ [b])%list (box_by_class st);
          conf_by_class := Dict.set cname (cs ++ [conf])%list (conf_by_class st) |}.

(** The detections of a result with masks, as the loop's [zip] pairs them:
    lower-cased class name, raw mask, box, confidence. *)
Definition detections (res : Results) (raw_masks : list (list F))
    : list (string * list F * Box * F) :=
  let names := map (fun i => lower (names i)) (boxes_cls res) in
  zip4 names raw_masks (boxes_xyxy res) (boxes_conf res).

Definition group_by_class (res : Results) (raw_masks : list (list F))
    : option ByClass :=
  ofold group_step (detections res raw_masks)
    {| mask_by_class := Dict.empty;
       box_by_class := Dict.empty;
       conf_by_class := Dict.empty |}.

(** ** Merging the gloves (lines 205-213) *)

Definition merge_gloves (GLOVES : list mask) (GBOXES : list Box)
    : option mask * option Box :=
  match GLOVES, GBOXES with
  | g0 :: g1 :: _, gb0 :: gb1 :: _ =>
      let glove_mask := bitwise_or g0 g1 in
      let x1 := py_min (b0 gb0) (b0 gb1) in
      let y1 := py_min (b1 gb0) (b1 gb1) in
      let x2 := py_max (b2 gb0) (b2 gb1) in
      let y2 := py_max (b3 gb0) (b3 gb1) in
      (Some glove_mask, Some (mkBox x1 y1 x2 y2))
  | _, _ => (None, None)
  end.

(** ** Average contact between the gloves and an object (lines 216-227) *)

Definition avg_contact (img_diag : F) (glove_mask : option mask)
    (glove_box : option Box) (obj_masks : list mask) (obj_boxes : list Box)
    : option (F * F) :=
  match glove_mask, glove_box, obj_masks with
  | Some gmask, Some gbox, _ :: _ =>
      let '(g_cx, g_cy) := bbox_center gbox in
      let ious :=
        map (fun '(m, b) => fused_iou (Some gmask) (Some m) gbox b alpha_default)
          (combine obj_masks obj_boxes) in
      let dists :=
        map (fun '(m, b) =>
               let '(bx, by_) := bbox_center b in
               fsqrt ((g_cx - bx) * (g_cx - bx) + (g_cy - by_) * (g_cy - by_))
               / (img_diag + dec 1 6))
          (combine obj_masks obj_boxes) in
      let mean_iou := np_mean ious in
      d <- np_min dists ;;
      Some (mean_iou, d)
  | _, _, _ => Some (of_Z 0, of_Z 1)
  end.

(** ** The rule table and the confidence of one frame (lines 186-266) *)

(** [d.get(cname, [])] *)
Definition bucket {V} (d : Dict.t (list V)) (cname : string) : list V :=
  Dict.get_or cname [] d.

(** [avg_contact] between the merged gloves and the objects of one class *)
Definition contact (img_diag : F) (g : ByClass) (cname : string)
    : option (F * F) :=
  let '(glove_mask, glove_box) :=
    merge_gloves (bucket (mask_by_class g) "gloves")
                 (bucket (box_by_class g) "gloves") in
  avg_contact img_diag glove_mask glove_box
    (bucket (mask_by_class g) cname) (bucket (box_by_class g) cname).

(** The [if]/[elif] chain of lines 242-247 *)
Definition activity_rule (GLOVES ARM SYR WIPE : list mask)
    (iou_syr d_syr iou_rub d_rub iou_arm : F) : string :=
  if (2 <=? len GLOVES)%Z && (0 <? len ARM)%Z && (0 <? len SYR)%Z
     && ((dec 5 2 <? iou_syr) || (d_syr <? dec 12 2))
  then "Injection"
  else if (2 <=? len GLOVES)%Z && (0 <? len ARM)%Z
          && ((dec 5 2 <? iou_rub) || (d_rub <? dec 12 2))
          && (len SYR =? 0)%Z
  then "Tourniquet"
  else if (2 <=? len GLOVES)%Z && (0 <? len ARM)%Z
          && (match SYR with [] => true | _ => false end)
          && ((0 <? len WIPE)%Z || (dec 1 2 <? iou_arm))
  then "Disinfection"
  else "No clear activity".

Definition _mean_or_zero (seq : list F) : F :=
  if (0 <? len seq)%Z then np_mean seq else of_Z 0.

(** The [if]/[elif] chain of lines 257-264 *)
Definition activity_confidence (activity : string) (WIPE : list mask)
    (conf_glv conf_arm conf_syr conf_rub conf_wip : F) : F :=
  if activity =? "Injection" then np_mean [conf_glv; conf_arm; conf_syr]
  else if activity =? "Tourniquet" then np_mean [conf_glv; conf_arm; conf_rub]
  else if activity =? "Disinfection" then
    if (0 <? len WIPE)%Z then np_mean [conf_glv; conf_arm; conf_wip]
    else np_mean [conf_glv; conf_arm]
  else of_Z 0.

Definition classify (img_diag : F) (g : ByClass) : option Result :=
  let GLOVES := bucket (mask_by_class g) "gloves" in
  let ARM := bucket (mask_by_class g) "training arm" in
  let SYR := bucket (mask_by_class g) "syringe" in
  let WIPE := bucket (mask_by_class g) "disinfectant wipe" in
  '(iou_syr, d_syr) <- contact img_diag g "syringe" ;;
  '(iou_rub, d_rub) <- contact img_diag g "rubber band" ;;
  '(iou_wip, d_wip) <- contact img_diag g "disinfectant wipe" ;;
  '(iou_arm, d_arm) <- contact img_diag g "training arm" ;;
  let activity :=
    activity_rule GLOVES ARM SYR WIPE iou_syr d_syr iou_rub d_rub iou_arm in
  let conf_glv := _mean_or_zero (bucket (conf_by_class g) "gloves") in
  let conf_arm := _mean_or_zero (bucket (conf_by_class g) "training arm") in
  let conf_syr := _mean_or_zero (bucket (conf_by_class g) "syringe") in
  let conf_rub := _mean_or_zero (bucket (conf_by_class g) "rubber band") in
  let conf_wip := _mean_or_zero (bucket (conf_by_class g) "disinfectant wipe") in
  let conf_activity :=
    activity_confidence activity WIPE conf_glv conf_arm conf_syr conf_rub conf_wip in
  Some {| activity := activity; confidence := pyround conf_activity 4 |}.

(** [img_diag = (W ** 2 + H ** 2) ** 0.5] *)
Definition img_diag_of (frame : Frame) : F :=
  fsqrt (of_Z (shape_W frame ^ 2 + shape_H frame ^ 2)).

Definition _process_single_frame (frame : Frame) : option Result :=
  let img_diag := img_diag_of frame in
  let res := detect frame in
  match masks res with
  | None => Some {| activity := "No clear activity"; confidence := of_Z 0 |}
  | Some raw_masks =>
      g <- group_by_class res raw_masks ;;
      classify img_diag g
  end.

(** ** The window: [infer_frames] *)

(** The loop of lines 130-136; [self.frame_id] is threaded through.  A
    result dict is never empty, so [if res] always holds. *)
Fixpoint frames_loop (frame_id : nat) (frame_list : list Frame)
    (activities : list string) (confidences : list F)
    : option (list string * list F) * nat :=
  match frame_list with
  | [] => (Some (activities, confidences), frame_id)
  | frame :: frame_list' =>
      let frame_id := (frame_id + 1)%nat in
      match _process_single_frame frame with
      | None => (None, frame_id)
      | Some res =>
          frames_loop frame_id frame_list'
            (activities ++ [activity res])%list
            (confidences ++ [confidence res])%list
      end
  end.

(** Lines 138-155: the vote over the frames' results *)
Definition aggregate (activities : list string) (confidences : list F)
    : option Result :=
  let valid_pairs :=
    filter (fun '(a, c) => negb (a =? "No clear activity"))
      (combine activities confidences) in
  match valid_pairs with
  | [] => Some {| activity := "No detection"; confidence := of_Z 0 |}
  | _ :: _ =>
      let '(acts, confs) := List.split valid_pairs in
      '(main_act, _) <- nth_error (most_common_1 (Counter acts)) 0 ;;
      let act_confs :=
        map snd (filter (fun '(a, c) => a =? main_act) (combine acts confs)) in
      let conf_mean := np_mean act_confs in
      let conf_std := np_std act_confs in
      let robust_conf := conf_mean - dec 5 1 * conf_std in
      let robust_conf := np_clip robust_conf (of_Z 0) (of_Z 1) in
      Some {| activity := main_act; confidence := pyround robust_conf 2 |}
  end.

Definition infer_frames (frame_id : nat) (frame_list : list Frame)
    : option Result * nat :=
  match frame_list with
  | [] => (Some {| activity := "No frames"; confidence := of_Z 0 |}, frame_id)
  | _ :: _ =>
      let '(r, frame_id) := frames_loop frame_id frame_list [] [] in
      ('(activities, confidences) <- r ;; aggregate activities confidences,
       frame_id)
  end.

(** ** [model_inference] of ml_inference.py, on the module's detector *)

Definition model_inference (frame_id : nat) (frame_paths : list Frame)
    (use_raul : bool) : option Response * nat :=
  if use_raul then
    match frame_paths with
    | [] => (Some (Error "No image found!"), frame_id)
    | _ :: _ =>
        let '(result, frame_id) := infer_frames frame_id frame_paths in
        (r <- result ;; Some (Answer r), frame_id)
    end
  else (Some NoResponse, frame_id).

End Model.

Arguments Box F : clear implicits.
Arguments Results F : clear implicits.
Arguments Frame F : clear implicits.
Arguments Result F : clear implicits.
Arguments Response F : clear implicits.
Arguments ByClass F : clear implicits.
Arguments mkBox {F} _ _ _ _.
Arguments mkResults {F} _ _ _ _.
Arguments mkFrame {F} _ _ _.
Arguments mkResult {F} _ _.
Arguments Error {F} _.
Arguments NoResponse {F}.

(** ** IEEE binary64: the arithmetic the program runs on *)

Module Binary64.

(** [float(n)]: the integer rounded to nearest, ties to even *)
Definition of_Z (n : Z) : float :=
  SF2Prim (binary_normalize prec emax n 0 false).

(** The integer nearest to [num / den] ([den > 0]), ties to the even one *)
Definition round_half_even (num den : Z) : Z :=
  let q := (num / den)%Z in
  let r := (num mod den)%Z in
  match (2 * r ?= den)%Z with
  | Lt => q
  | Gt => (q + 1)%Z
  | Eq => if Z.even q then q else (q + 1)%Z
  end.

(** [round(x, ndigits)] for [ndigits >= 0], as CPython's [double_round]: the
    exact value of [x] is rounded to [ndigits] decimals, ties to even, and
    the decimal is read back as the nearest float.  NaN, infinities and
    zeros, and every [x] when [ndigits] is above 323, round to themselves. *)
Definition round (x : float) (ndigits : nat) : float :=
  if (323 <? ndigits)%nat then x
  else
    match Prim2SF x with
    | S754_finite s m e =>
        let p10 := (10 ^ Z.of_nat ndigits)%Z in
        let num := (Zpos m * p10 * 2 ^ Z.max e 0)%Z in
        let den := (2 ^ Z.max (- e) 0)%Z in
        match round_half_even num den with
        | Zpos q =>
            SF2Prim (SFdiv prec emax (S754_finite s q 0)
                                     (S754_finite false (Z.to_pos p10) 0))
        | _ => if s then neg_zero else zero
        end
    | _ => x
    end.

Lemma binary64_round_zero (ndigits : nat) : round (of_Z 0) ndigits = of_Z 0.
Proof.
  unfold round. destruct (323 <? ndigits)%nat; reflexivity.
Qed.

End Binary64.

#[export] Instance binary64 : PyNum float := {
  of_Z := Binary64.of_Z;
  fadd := PrimFloat.add;
  fsub := PrimFloat.sub;
  fmul := PrimFloat.mul;
  fdiv := PrimFloat.div;
  fsqrt := PrimFloat.sqrt;
  flt := PrimFloat.ltb;
  fle := PrimFloat.leb;
  pyround := Binary64.round;
  pyround_zero := Binary64.binary64_round_zero
}.

(** ** The reals: the same arithmetic without rounding *)

Module Exact.

Definition ltb (a b : R) : bool := if Rlt_dec a b then true else false.
Definition leb (a b : R) : bool := if Rle_dec a b then true else false.

(** Rounding to [ndigits] decimals, ties to even *)
Definition round (x : R) (ndigits : nat) : R :=
  let p10 := (10 ^ ndigits)%R in
  let y := (x * p10)%R in
  let fl := Int_part y in
  let fr := frac_part y in
  let n :=
    if Rlt_dec fr (1 / 2) then fl
    else if Rlt_dec (1 / 2) fr then (fl + 1)%Z
    else if Z.even fl then fl else (fl + 1)%Z in
  (IZR n / p10)%R.

Lemma exact_round_zero (ndigits : nat) : round (IZR 0) ndigits = IZR 0.
Proof.
  unfold round.
  replace (0 * 10 ^ ndigits)%R with 0%R by ring.
  assert (Hup : up 0 = 1%Z) by (symmetry; apply tech_up; simpl; lra).
  assert (Hfl : Int_part 0 = 0%Z) by (unfold Int_part; rewrite Hup; reflexivity).
  assert (Hfr : frac_part 0 = 0%R)
    by (unfold frac_part; rewrite Hfl; simpl; ring).
  rewrite Hfl, Hfr.
  destruct (Rlt_dec 0 (1 / 2)) as [_ | Hn]; [| exfalso; apply Hn; lra].
  unfold Rdiv. ring.
Qed.

End Exact.

#[export] Instance exact : PyNum R := {
  of_Z := IZR;
  fadd := Rplus;
  fsub := Rminus;
  fmul := Rmult;
  fdiv := Rdiv;
  fsqrt := sqrt;
  flt := Exact.ltb;
  fle := Exact.leb;
  pyround := Exact.round;
  pyround_zero := Exact.exact_round_zero
}.


(** * The rest of ml_inference.py *)

(** What [_to_frame_list] is given: a [str] or [Path], an iterable of
    paths, or anything else. *)
Inductive FramePaths : Type :=
| OnePath (p : string)
| ManyPaths (ps : list string)
| NotPaths.

(** One result of the classification model (external): [result.probs] as
    [probs.data.tolist()], [None] when the attribute is missing or [None],
    and the dict [result.names] from class index to class name. *)
Record ClsResult (F : Type) : Type := mkClsResult {
  probs : option (list F);
  cls_names : nat -> option string
}.

Arguments mkClsResult {F} _ _.
Arguments probs {F} _.
Arguments cls_names {F} _.

(** The dict that [format_model_output] returns on success *)
Record Formatted (F : Type) : Type := mkFormatted {
  top_class : string;
  top_confidence : F;
  all_class_probabilities : Dict.t F;
  out_frame_paths : list string
}.

Arguments mkFormatted {F} _ _ _ _.
Arguments top_class {F} _.
Arguments top_confidence {F} _.
Arguments all_class_probabilities {F} _.
Arguments out_frame_paths {F} _.

Inductive FormatOutput (F : Type) : Type :=
| FormatError (msg : string)
| FormatOk (out : Formatted F).

Arguments FormatError {F} _.
Arguments FormatOk {F} _.

(** What [main] prints: [json.dumps] of a response, or of [{"error":
    str(exc)}] for an exception whose text is modelled only for the
    [ValueError] that [main] raises itself. *)
Inductive Printed (F : Type) : Type :=
| PrintedResponse (r : Response F)
| PrintedError (msg : option string).

Arguments PrintedResponse {F} _.
Arguments PrintedError {F} _.

Section Inference.

Context {F : Type} `{PyNum F}.

Local Open Scope string_scope.
Local Open Scope py_scope.

(** [self.model.names], [str(Path(p))] of pathlib, and a frame path read
    by [cv2.imread] and sent through the model ([None]: the image could
    not be read, and [frame.shape] raises) *)
Variable names : nat -> string.
Variable path_str : string -> string.
Variable load : string -> option (Frame F).

Definition _to_frame_list (frame_paths : FramePaths) : list string :=
  match frame_paths with
  | OnePath p => filter (fun p => negb (p =? "")) [p]
  | ManyPaths ps => filter (fun p => negb (p =? "")) (map path_str ps)
  | NotPaths => []
  end.

(** [np.mean(rows, axis=0)]: the rows are added one after the other, from
    0, and divided by their number; rows of different lengths do not make
    an array (ValueError). *)
Definition np_mean_axis0 (rows : list (list F)) : option (list F) :=
  match rows with
  | [] => None
  | row :: rows' =>
      if forallb (fun r => Nat.eqb (List.length r) (List.length row)) rows'
      then Some (map (fun j => np_mean (map (fun r => nth j r (of_Z 0)) rows))
                   (seq 0 (List.length row)))
      else None
  end.

(** [max(d, key=d.get)]: the first key, in the dict's order, whose value
    no later value exceeds; ValueError on an empty dict *)
Fixpoint max_by_value (best : string * F) (items : list (string * F))
    : string * F :=
  match items with
  | [] => best
  | item :: items' =>
      max_by_value (if snd best <? snd item then item else best) items'
  end.

Definition max_key (d : Dict.t F) : option string :=
  match d with
  | [] => None
  | item :: items => Some (fst (max_by_value item items))
  end.

(** [{class_names[i]: float(prob) for i, prob in enumerate(avg_prob)}];
    a missing index is a KeyError. *)
Definition class_probs_of (class_names : nat -> option string)
    (avg_prob : list F) : option (Dict.t F) :=
  ofold (fun d '(i, prob) =>
           name <- class_names i ;; Some (Dict.set name prob d))
    (combine (seq 0 (List.length avg_prob)) avg_prob) Dict.empty.

Definition format_model_output (results : list (ClsResult F))
    (frame_paths : list string) : option (FormatOutput F) :=
  match results with
  | [] => Some (FormatError "Empty result")
  | first :: _ =>
      let all_probabilities :=
        flat_map (fun result =>
                    match probs result with
                    | None => []
                    | Some p => [p]
                    end) results in
      match all_probabilities with
      | [] => Some (FormatError "No valid probabilities returned by model!")
      | _ :: _ =>
          avg_prob <- np_mean_axis0 all_probabilities ;;
          class_probs <- class_probs_of (cls_names first) avg_prob ;;
          top <- max_key class_probs ;;
          conf <- Dict.get top class_probs ;;
          Some (FormatOk {| top_class := top;
                            top_confidence := conf;
                            all_class_probabilities := class_probs;
                            out_frame_paths := frame_paths |})
      end
  end.

(** [for x in l: ys.append(f(x))], stopping at the first exception *)
Fixpoint omap {A B} (f : A -> option B) (l : list A) : option (list B) :=
  match l with
  | [] => Some []
  | x :: l' => y <- f x ;; ys <- omap f l' ;; Some (y :: ys)
  end.

(** [main] on [sys.argv[1:]], in a fresh process (the detector's frame
    counter is 0): what it prints and its exit status. *)
Definition main (argv : list string) : Printed F * Z :=
  let frames := _to_frame_list (ManyPaths argv) in
  match frames with
  | [] => (PrintedError (Some "No valid frame paths provided"), 1%Z)
  | _ :: _ =>
      match omap load frames with
      | None => (PrintedError None, 1%Z)
      | Some read =>
          match fst (model_inference names 0 read true) with
          | Some result => (PrintedResponse result, 0%Z)
          | None => (PrintedError None, 1%Z)
          end
      end
  end.

End Inference.

(** * The specification's vocabulary

    ** The detections of one canonical category

    The rule engine of the specification reads a frame's detections by
    canonical category; the program reads them from the three dicts of the
    grouping loop.  The definitions below are the former, and
    [group_by_class_spec] relates the two. *)

Section Categories.

Context {F : Type} `{PyNum F}.

Local Open Scope string_scope.
Local Open Scope py_scope.

Local Abbreviation det := (string * list F * Box F * F)%type.

Definition det_name (d : det) : string :=
  fst (fst (fst d)).
Definition det_mask (d : det) : list F :=
  snd (fst (fst d)).
Definition det_box (d : det) : Box F := snd (fst d).
Definition det_conf (d : det) : F := snd d.

(** The detections canonicalized as [cname], in detector output order *)
Definition of_class (dets : list det)
    (cname : string) : list det :=
  filter (fun d => String.eqb (canonical (det_name d)) cname) dets.

Definition class_masks dets cname : list mask :=
  map (fun d => binarize (det_mask d)) (of_class dets cname).
Definition class_boxes dets cname : list (Box F) :=
  map det_box (of_class dets cname).
Definition class_confs dets cname : list F :=
  map det_conf (of_class dets cname).

(** The contact score between the fused glove region and a category *)
Definition contact_score (img_diag : F) dets (cname : string)
    : option (F * F) :=
  let '(glove_mask, glove_box) :=
    merge_gloves (class_masks dets "gloves") (class_boxes dets "gloves") in
  avg_contact img_diag glove_mask glove_box
    (class_masks dets cname) (class_boxes dets cname).

(** What a dict of the grouping loop holds under [cname] once the
    detections [dets] went through *)
Definition grouped {V} (f : det -> V) dets
    (cname : string) : option (list V) :=
  match of_class dets cname with
  | [] => None
  | l => Some (map f l)
  end.

Definition grouping_inv (st : ByClass F) dets : Prop :=
  forall cname,
    Dict.get cname (mask_by_class st)
      = grouped (fun d => binarize (det_mask d)) dets cname /\
    Dict.get cname (box_by_class st) = grouped det_box dets cname /\
    Dict.get cname (conf_by_class st) = grouped det_conf dets cname.


(** ** The confidence of a frame *)

(** The mean detection confidence of a category, 0.0 for an empty one *)
Definition category_confidence (dets : list det) (cname : string) : F :=
  match class_confs dets cname with
  | [] => of_Z 0
  | confs => np_mean confs
  end.

(** The confidence the specification gives the winning activity, before
    any rounding: the unweighted mean of the relevant categories' means. *)
Definition mean_of_category_means (dets : list det) (activity : string) : F :=
  let glv := category_confidence dets "gloves" in
  let arm := category_confidence dets "training arm" in
  if activity =? "Injection" then
    np_mean [glv; arm; category_confidence dets "syringe"]
  else if activity =? "Tourniquet" then
    np_mean [glv; arm; category_confidence dets "rubber band"]
  else if activity =? "Disinfection" then
    match of_class dets "disinfectant wipe" with
    | [] => np_mean [glv; arm]
    | _ => np_mean [glv; arm; category_confidence dets "disinfectant wipe"]
    end
  else of_Z 0.

(** ** The window *)

(** The frame results that are left once the 'No clear activity' entries
    are discarded, in frame order *)
Definition surviving (activities : list string) (confidences : list F)
    : list (string * F) :=
  filter (fun '(a, c) => negb (a =? "No clear activity"))
    (combine activities confidences).

(** The confidences of the frame results labeled [label] *)
Definition supporting (label : string) (results : list (string * F))
    : list F :=
  map snd (filter (fun r => fst r =? label) results).

(** [mean - 0.5 * population_std], clipped to [0, 1], rounded to 2 digits *)
Definition robust_confidence (confs : list F) : F :=
  pyround (np_clip (np_mean confs - dec 5 1 * np_std confs) (of_Z 0) (of_Z 1)) 2.

(** ** The contact conditions of the rule table *)

(** [iou > 0.05 or d < 0.12] on a contact score *)
Definition touching (score : option (F * F)) : bool :=
  match score with
  | Some (iou, d) => (dec 5 2 <? iou) || (d <? dec 12 2)
  | None => false
  end.

(** [iou > 0.01] on a contact score *)
Definition overlapping (score : option (F * F)) : bool :=
  match score with
  | Some (iou, _) => dec 1 2 <? iou
  | None => false
  end.

End Categories.

(** The number of votes of a label *)
Definition votes (acts : list string) (a : string) : nat :=
  count_occ string_dec acts a.


(** The five canonical categories *)
Definition categories : list string :=
  ["syringe"; "gloves"; "training arm"; "rubber band"; "disinfectant wipe"]%string.

(** A mask as line 181 makes it: every pixel 0 or 255 *)
Definition binary_mask (m : mask) : Prop :=
  Forall (fun p => p = 0 \/ p = 255)%Z m.

(** The width and the height of the intersection of two boxes, 0 when
    they do not meet *)
Definition inter_w (a b : Box R) : R :=
  Rmax 0 (Rmin (b2 a) (b2 b) - Rmax (b0 a) (b0 b))%R.
Definition inter_h (a b : Box R) : R :=
  Rmax 0 (Rmin (b3 a) (b3 b) - Rmax (b1 a) (b1 b))%R.

(** The mask term of [fused_iou] *)
Definition mask_iou (mask_a mask_b : option mask) : R :=
  match mask_a, mask_b with
  | Some ma, Some mb =>
      let i := count_nonzero (bitwise_and ma mb) in
      if (i =? 0)%Z then 0%R
      else (IZR i / (IZR (count_nonzero ma + count_nonzero mb - i)%Z
                     + 1 / 1000000))%R
  | _, _ => 0%R
  end.

(** A box that lies inside an image of width [W] and height [H] *)
Definition inside_image (W H : Z) (b : Box R) : Prop :=
  (0 <= b0 b <= IZR W /\ 0 <= b2 b <= IZR W /\
   0 <= b1 b <= IZR H /\ 0 <= b3 b <= IZR H)%R.

(** ** Exact arithmetic *)

(** The laws of an arithmetic without rounding that the order-independence
    of a sum and of a minimum rest on: addition is commutative and
    associative, and [<] is a strict total order (so there is no NaN). *)
Class ExactArith {F : Type} (N : PyNum F) : Prop := {
  fadd_comm : forall a b : F, (a + b)%py = (b + a)%py;
  fadd_assoc : forall a b c : F, (a + b + c)%py = (a + (b + c))%py;
  fle_refl : forall a : F, (a <=? a)%py = true;
  flt_asym : forall a b : F, (a <? b)%py = true -> (b <? a)%py = false;
  flt_trans : forall a b c : F,
      (a <? b)%py = true -> (b <? c)%py = true -> (a <? c)%py = true;
  flt_total : forall a b : F,
      (a <? b)%py = false -> (b <? a)%py = false -> a = b
}.

(** * Frames and windows on binary64 and on the reals *)

Module Examples.

Local Open Scope string_scope.

(** A table of class names as a trained model could carry it *)
Definition names (i : nat) : string :=
  nth i ["White Gloves"; "Orange Arm"; "Syringe"; "Tourniquet"; "Gauze"]
    "person".

Definition box (x1 y1 x2 y2 : Z) : Box float :=
  mkBox (of_Z x1) (of_Z y1) (of_Z x2) (of_Z y2).

Definition pixels (l : list Z) : list float := map of_Z l.

(** Two gloves, the arm, a syringe and a rubber band, both objects under
    the gloves; 40 x 30 image, masks of four pixels. *)
Definition both_objects_masks : list (list float) :=
  [ pixels [1; 1; 0; 0]; pixels [0; 1; 1; 0]; pixels [1; 1; 1; 1];
    pixels [0; 1; 0; 0]; pixels [1; 1; 1; 0] ]%Z.

Definition both_objects : Frame float :=
  mkFrame 30 40
    (mkResults [0; 0; 1; 2; 3]
       [ box 0 0 10 10; box 5 5 15 15; box 0 0 40 30;
         box 5 5 12 12; box 2 2 14 14 ]%Z
       [ dec 5 1; dec 5 1; dec 5 1; dec 75 2; dec 75 2 ]
       (Some both_objects_masks)).

(** One glove only, with the arm and a syringe *)
Definition one_glove_masks : list (list float) :=
  [ pixels [1; 1; 0; 0]; pixels [1; 1; 1; 1]; pixels [0; 1; 0; 0] ]%Z.

Definition one_glove : Frame float :=
  mkFrame 30 40
    (mkResults [0; 2; 1]
       [ box 0 0 10 10; box 5 5 12 12; box 0 0 40 30 ]%Z
       [ dec 9 1; dec 8 1; dec 7 1 ]
       (Some one_glove_masks)).

(** Three gloves: the third one is far from the first two. *)
Definition three_gloves_masks : list (list float) :=
  [ pixels [1; 1; 0; 0]; pixels [0; 1; 1; 0]; pixels [0; 0; 0; 1] ]%Z.

Definition three_gloves : Results float :=
  mkResults [0; 0; 0]
    [ box 0 0 10 10; box 5 5 15 15; box 30 20 40 30 ]%Z
    [ dec 9 1; dec 8 1; dec 7 1 ]
    (Some three_gloves_masks).

(** A result of a detector without segmentation *)
Definition no_masks : Frame float :=
  mkFrame 30 40 (mkResults [0; 0] [ box 0 0 10 10; box 5 5 15 15 ]%Z
                   [ dec 9 1; dec 8 1 ] None).

(** Three targets for the contact metric over the reals *)
Definition real_box (x1 y1 x2 y2 : Z) : Box R :=
  mkBox (IZR x1) (IZR y1) (IZR x2) (IZR y2).






Definition both_objects_dets : list (string * list float * Box float * float) :=
  detections names (detect both_objects) both_objects_masks.

Definition one_glove_dets : list (string * list float * Box float * float) :=
  detections names (detect one_glove) one_glove_masks.



Definition tied_activities : list string :=
  ["Tourniquet"; "Injection"; "No clear activity"; "Injection"; "Tourniquet"].

Definition tied_confidences : list float :=
  [dec 6 1; dec 9 1; of_Z 0; dec 9 1; dec 6 1].

End Examples.

(** Further frames and results, for the rules of the frame classifier, the
    bounds in exact arithmetic and [format_model_output] *)
Module MoreExamples.

Local Open Scope string_scope.

(** Three gloves in a 40 x 30 image, nothing else *)
Definition gloves_only : Frame float :=
  mkFrame 30 40 Examples.three_gloves.

(** Two gloves, the arm and a rubber band under the gloves, no syringe *)
Definition rubber_band_masks : list (list float) :=
  [ Examples.pixels [1; 1; 0; 0]; Examples.pixels [0; 1; 1; 0];
    Examples.pixels [1; 1; 1; 1]; Examples.pixels [1; 1; 1; 0] ]%Z.

Definition rubber_band : Frame float :=
  mkFrame 30 40
    (mkResults [0; 0; 1; 3]
       [ Examples.box 0 0 10 10; Examples.box 5 5 15 15;
         Examples.box 0 0 40 30; Examples.box 2 2 14 14 ]%Z
       [ dec 5 1; dec 5 1; dec 5 1; dec 75 2 ]
       (Some rubber_band_masks)).

(** The same frame over the reals *)
Definition real_rubber_band : Frame R :=
  mkFrame 30 40
    (mkResults [0; 0; 1; 3]
       [ Examples.real_box 0 0 10 10; Examples.real_box 5 5 15 15;
         Examples.real_box 0 0 40 30; Examples.real_box 2 2 14 14 ]%Z
       [ 1 / 2; 1 / 2; 1 / 2; 3 / 4 ]%R
       (Some [ [1; 1; 0; 0]; [0; 1; 1; 0]; [1; 1; 1; 1]; [1; 1; 1; 0] ]%R)).

(** Results of a classification model with two classes; the second result
    carries no probabilities. *)
Definition cls_table (i : nat) : option string :=
  nth_error ["Injection"; "Tourniquet"] i.

Definition cls_results : list (ClsResult R) :=
  [ mkClsResult (Some [1 / 4; 3 / 4]%R) cls_table;
    mkClsResult None cls_table;
    mkClsResult (Some [1 / 2; 1 / 2]%R) cls_table ].

Definition cls_output : Formatted R :=
  {| top_class := "Tourniquet";
     top_confidence := np_mean [3 / 4; 1 / 2]%R;
     all_class_probabilities :=
       [ ("Injection", np_mean [1 / 4; 1 / 2]%R);
         ("Tourniquet", np_mean [3 / 4; 1 / 2]%R) ];
     out_frame_paths := ["a.png"; "b.png"; "c.png"] |}.

End MoreExamples.

(** * Properties *)

(** ** Dicts *)

Lemma dict_get_set_same {V} (k : string) (v : V) (d : Dict.t V) :
  Dict.get k (Dict.set k v d) = Some v.
Proof.
  induction d as [| [k' v'] d IH]; simpl.
  - now rewrite String.eqb_refl.
  - destruct (String.eqb k k') eqn:E; simpl.
    + now rewrite String.eqb_refl.
    + now rewrite E.
Qed.

Lemma dict_get_set_other {V} (k k' : string) (v : V) (d : Dict.t V) :
  k <> k' -> Dict.get k' (Dict.set k v d) = Dict.get k' d.
Proof.
  intros Hne.
  induction d as [| [k0 v0] d IH]; simpl.
  - destruct (String.eqb k' k) eqn:E; auto.
    apply String.eqb_eq in E. congruence.
  - destruct (String.eqb k k0) eqn:E; simpl.
    + apply String.eqb_eq in E. subst k0.
      destruct (String.eqb k' k) eqn:E'; auto.
      apply String.eqb_eq in E'. congruence.
    + destruct (String.eqb k' k0); auto.
Qed.

Lemma dict_keys_set_absent {V} (k : string) (v : V) (d : Dict.t V) :
  Dict.get k d = None -> Dict.keys (Dict.set k v d) = Dict.keys d ++ [k].
Proof.
  unfold Dict.keys.
  induction d as [| [k0 v0] d IH]; simpl; intros Hg; auto.
  destruct (String.eqb k k0); [discriminate |].
  simpl. now rewrite IH.
Qed.

Lemma dict_keys_set_present {V} (k : string) (v v0 : V) (d : Dict.t V) :
  Dict.get k d = Some v0 -> Dict.keys (Dict.set k v d) = Dict.keys d.
Proof.
  unfold Dict.keys.
  induction d as [| [k1 v1] d IH]; simpl; intros Hg; [discriminate |].
  destruct (String.eqb k k1) eqn:E; simpl.
  - apply String.eqb_eq in E. now subst.
  - now rewrite IH.
Qed.

Lemma dict_get_in_keys {V} (k : string) (d : Dict.t V) :
  In k (Dict.keys d) <-> Dict.get k d <> None.
Proof.
  unfold Dict.keys.
  induction d as [| [k0 v0] d IH]; simpl.
  - split; [tauto | congruence].
  - destruct (String.eqb k k0) eqn:E.
    + apply String.eqb_eq in E. subst. split; [congruence | auto].
    + apply String.eqb_neq in E. rewrite <- IH.
      split; [intros [Heq | Hin]; [congruence | exact Hin] | auto].
Qed.

Lemma dict_get_of_in {V} (k : string) (v : V) (d : Dict.t V) :
  NoDup (Dict.keys d) -> In (k, v) d -> Dict.get k d = Some v.
Proof.
  unfold Dict.keys.
  induction d as [| [k0 v0] d IH]; simpl; intros Hnd Hin; [tauto |].
  inversion Hnd as [| ? ? Hnotin Hnd']; subst.
  destruct Hin as [Heq | Hin].
  - inversion Heq; subst. now rewrite String.eqb_refl.
  - destruct (String.eqb k k0) eqn:E; [| auto].
    apply String.eqb_eq in E. subst k0.
    exfalso. apply Hnotin. apply in_map_iff. now exists (k, v).
Qed.

Lemma dict_in_of_get {V} (k : string) (v : V) (d : Dict.t V) :
  Dict.get k d = Some v -> In (k, v) d.
Proof.
  induction d as [| [k0 v0] d IH]; simpl; [discriminate |].
  destruct (String.eqb k k0) eqn:E; intros Hg.
  - apply String.eqb_eq in E. left. congruence.
  - right. auto.
Qed.

(** ** The vote: [Counter(acts).most_common(1)] *)


Lemma Counter_snoc (acts : list string) (x : string) :
  Counter (acts ++ [x]) =
  Dict.set x (Dict.get_or x 0 (Counter acts) + 1) (Counter acts).
Proof.
  unfold Counter. now rewrite fold_left_app.
Qed.

Lemma votes_snoc (acts : list string) (x k : string) :
  votes (acts ++ [x]) k = votes acts k + (if string_dec x k then 1 else 0).
Proof.
  unfold votes. rewrite count_occ_app. simpl.
  destruct (string_dec x k); reflexivity.
Qed.

Lemma Counter_get (acts : list string) (k : string) :
  Dict.get k (Counter acts) =
  match votes acts k with
  | O => None
  | S n => Some (S n)
  end.
Proof.
  induction acts as [| x acts IH] using rev_ind; [reflexivity |].
  rewrite Counter_snoc, votes_snoc.
  destruct (string_dec x k) as [-> | Hne].
  - rewrite dict_get_set_same. unfold Dict.get_or. rewrite IH.
    destruct (votes acts k); simpl; f_equal; lia.
  - rewrite dict_get_set_other by assumption. rewrite IH, Nat.add_0_r.
    reflexivity.
Qed.

Lemma Counter_get_none (acts : list string) (k : string) :
  Dict.get k (Counter acts) = None <-> ~ In k acts.
Proof.
  rewrite Counter_get. unfold votes.
  rewrite (count_occ_not_In string_dec).
  destruct (count_occ string_dec acts k); split; congruence.
Qed.

Lemma Counter_nodup (acts : list string) : NoDup (Dict.keys (Counter acts)).
Proof.
  induction acts as [| x acts IH] using rev_ind; [constructor |].
  rewrite Counter_snoc.
  destruct (Dict.get x (Counter acts)) eqn:E.
  - erewrite dict_keys_set_present by eassumption. exact IH.
  - rewrite dict_keys_set_absent by assumption.
    apply NoDup_app; [exact IH | repeat constructor; auto |].
    intros a Ha [Hx | []]. subst a.
    apply dict_get_in_keys in Ha. congruence.
Qed.

(** The keys of a Counter stand in the order of first occurrence: what
    stands before the first [m] has its key before [m]'s. *)
Lemma Counter_order (acts : list string) :
  forall k1 m k2, Dict.keys (Counter acts) = k1 ++ m :: k2 ->
  exists pre post,
    acts = pre ++ m :: post /\ ~ In m pre /\ forall a, In a pre -> In a k1.
Proof.
  induction acts as [| x acts IH] using rev_ind; intros k1 m k2 Hk.
  - destruct k1; discriminate.
  - rewrite Counter_snoc in Hk.
    destruct (Dict.get x (Counter acts)) eqn:E.
    + erewrite dict_keys_set_present in Hk by eassumption.
      destruct (IH _ _ _ Hk) as (pre & post & -> & Hnin & Hpre).
      exists pre, (post ++ [x]). rewrite <- app_assoc. auto.
    + rewrite dict_keys_set_absent in Hk by assumption.
      destruct k2 as [| y k2 _] using rev_ind.
      * apply app_inj_tail in Hk. destruct Hk as [Hk ->].
        exists acts, []. split; [reflexivity |].
        split; [now apply Counter_get_none |].
        intros a Ha. rewrite <- Hk. apply dict_get_in_keys.
        intros Hn. apply Counter_get_none in Hn. tauto.
      * change (k1 ++ m :: k2 ++ [y]) with (k1 ++ (m :: k2) ++ [y]) in Hk.
        rewrite app_assoc in Hk. apply app_inj_tail in Hk.
        destruct Hk as [Hk _].
        destruct (IH _ _ _ Hk) as (pre & post & -> & Hnin & Hpre).
        exists pre, (post ++ [x]). rewrite <- app_assoc. auto.
Qed.

Lemma max_by_count_spec (items : list (string * nat)) :
  forall best,
    let r := max_by_count best items in
    (r = best /\ forall e, In e items -> snd e <= snd best) \/
    (exists l1 l2,
        items = l1 ++ r :: l2 /\ snd best < snd r /\
        (forall e, In e l1 -> snd e < snd r) /\
        (forall e, In e l2 -> snd e <= snd r)).
Proof.
  induction items as [| x items IH]; intros best; simpl.
  - left. split; [reflexivity | tauto].
  - destruct (snd best <? snd x) eqn:E.
    + apply Nat.ltb_lt in E.
      destruct (IH x) as [[Hr Hle] | (l1 & l2 & Hl & Hlt & H1 & H2)].
      * right. exists [], items. rewrite Hr. simpl. repeat split; auto; tauto.
      * right. exists (x :: l1), l2. simpl.
        split; [now rewrite Hl at 1 |]. split; [lia |]. split; [| exact H2].
        intros e [<- | He]; auto.
    + apply Nat.ltb_ge in E.
      destruct (IH best) as [[Hr Hle] | (l1 & l2 & Hl & Hlt & H1 & H2)].
      * left. split; [exact Hr |]. intros e [<- | He]; auto.
      * right. exists (x :: l1), l2. simpl.
        split; [now rewrite Hl at 1 |]. split; [exact Hlt |].
        split; [| exact H2].
        intros e [<- | He]; [lia | auto].
Qed.

Lemma most_common_1_spec (d : Dict.t nat) :
  d <> [] ->
  exists m c d1 d2,
    most_common_1 d = [(m, c)] /\ d = d1 ++ (m, c) :: d2 /\
    (forall e, In e d1 -> snd e < c) /\ (forall e, In e d2 -> snd e <= c).
Proof.
  destruct d as [| item items]; [congruence | intros _].
  simpl.
  destruct (max_by_count_spec items item)
    as [[Hr Hle] | (l1 & l2 & Hl & Hlt & H1 & H2)].
  - destruct item as [m c]. exists m, c, [], items.
    rewrite Hr. simpl. repeat split; auto; tauto.
  - destruct (max_by_count item items) as [m c] eqn:Er.
    exists m, c, (item :: l1), l2. simpl in *.
    split; [reflexivity |]. split; [now rewrite Hl at 1 |].
    split; [| exact H2].
    intros e [<- | He]; auto.
Qed.

(** The elected label has the most votes, and every label met before its
    first occurrence has strictly fewer. *)
Lemma main_act_spec (acts : list string) :
  acts <> [] ->
  exists m c,
    nth_error (most_common_1 (Counter acts)) 0 = Some (m, c) /\
    c = votes acts m /\
    (forall a, votes acts a <= votes acts m) /\
    exists pre post,
      acts = pre ++ m :: post /\ ~ In m pre /\
      forall a, In a pre -> votes acts a < votes acts m.
Proof.
  intros Hne.
  assert (Hd : Counter acts <> []).
  { destruct acts as [| a acts]; [congruence |].
    intros Hd. assert (Hg : Dict.get a (Counter (a :: acts)) = None)
      by (rewrite Hd; reflexivity).
    apply Counter_get_none in Hg. apply Hg. now left. }
  destruct (most_common_1_spec Hd) as (m & c & d1 & d2 & Hmc & Hsplit & H1 & H2).
  assert (Hval : forall k v, In (k, v) (Counter acts) -> v = votes acts k /\ 0 < v).
  { intros k v Hin.
    apply dict_get_of_in in Hin; [| apply Counter_nodup].
    rewrite Counter_get in Hin.
    destruct (votes acts k); inversion Hin; split; [reflexivity | lia]. }
  assert (Hc : c = votes acts m).
  { apply Hval. rewrite Hsplit. apply in_or_app. right. now left. }
  exists m, c. rewrite Hmc. split; [reflexivity |]. split; [exact Hc |].
  split.
  - intros a. destruct (votes acts a) eqn:Ea; [lia |].
    assert (Hin : In (a, S n) (Counter acts)).
    { apply dict_in_of_get. rewrite Counter_get, Ea. reflexivity. }
    rewrite Hsplit in Hin. apply in_app_or in Hin.
    destruct Hin as [Hin | [Heq | Hin]].
    + apply H1 in Hin. simpl in Hin. lia.
    + inversion Heq. subst. lia.
    + apply H2 in Hin. simpl in Hin. lia.
  - assert (Hk : Dict.keys (Counter acts) = Dict.keys d1 ++ m :: Dict.keys d2).
    { rewrite Hsplit. unfold Dict.keys. now rewrite map_app. }
    destruct (Counter_order _ _ _ _ Hk) as (pre & post & Hacts & Hnin & Hpre).
    exists pre, post. split; [exact Hacts |]. split; [exact Hnin |].
    intros a Ha. apply Hpre in Ha. unfold Dict.keys in Ha.
    apply in_map_iff in Ha. destruct Ha as ([k v] & Hfst & Hin).
    simpl in Hfst. subst k.
    assert (Hin' : In (a, v) (Counter acts))
      by (rewrite Hsplit; apply in_or_app; now left).
    apply Hval in Hin'. apply H1 in Hin. simpl in Hin. lia.
Qed.


Section Grouping.

Context {F : Type} `{PyNum F}.

Local Abbreviation det := (string * list F * Box F * F)%type.

Lemma of_class_snoc (dets : list det) (x : det) (cname : string) :
  of_class (dets ++ [x]) cname =
  of_class dets cname ++
    (if String.eqb (canonical (det_name x)) cname then [x] else []).
Proof.
  unfold of_class. rewrite filter_app. simpl.
  destruct (String.eqb (canonical (det_name x)) cname); reflexivity.
Qed.

(** One dict through one turn of the loop: [fresh] tells whether the key
    is initialised first. *)
Lemma group_step_dict {V} (f : det -> V) (d : Dict.t (list V))
    (dets : list det) (x : det) (fresh : bool) :
  (forall cname, Dict.get cname d = grouped f dets cname) ->
  fresh = negb (match of_class dets (canonical (det_name x)) with
                | [] => false
                | _ => true
                end) ->
  let k := canonical (det_name x) in
  let d1 := if fresh then Dict.set k [] d else d in
  exists l,
    Dict.get k d1 = Some l /\
    forall cname,
      Dict.get cname (Dict.set k (l ++ [f x]) d1)
      = grouped f (dets ++ [x]) cname.
Proof.
  intros Hinv Hfresh k d1.
  assert (Hk : exists l, Dict.get k d1 = Some l /\
                         l = map f (of_class dets k) /\
                         forall c, c <> k -> Dict.get c d1 = Dict.get c d).
  { subst d1. specialize (Hinv k) as Hik. unfold grouped in Hik.
    fold k in Hfresh.
    destruct (of_class dets k) as [| y l] eqn:E; simpl in Hfresh; subst fresh.
    - exists []. rewrite dict_get_set_same. repeat split; auto.
      intros c Hc. apply dict_get_set_other. congruence.
    - exists (map f (y :: l)). repeat split; auto. }
  destruct Hk as (l & Hget & Hl & Hother).
  exists l. split; [exact Hget |].
  intros cname. unfold grouped. rewrite of_class_snoc.
  destruct (string_dec k cname) as [<- | Hne].
  - rewrite dict_get_set_same.
    fold k. rewrite String.eqb_refl, Hl.
    destruct (of_class dets k) as [| y l']; [reflexivity |].
    simpl. now rewrite map_app.
  - rewrite dict_get_set_other by assumption.
    rewrite Hother by congruence.
    fold k. apply String.eqb_neq in Hne. rewrite Hne, app_nil_r.
    apply Hinv.
Qed.

Lemma group_step_spec (st : ByClass F) (dets : list det) (x : det) :
  grouping_inv st dets ->
  exists st', group_step st x = Some st' /\ grouping_inv st' (dets ++ [x]).
Proof.
  intros Hinv.
  destruct x as [[[cname m] b] conf].
  set (x := (cname, m, b, conf)).
  set (k := canonical cname).
  assert (Hfresh : negb (Dict.mem k (mask_by_class st)) =
                   negb (match of_class dets (canonical (det_name x)) with
                         | [] => false
                         | _ => true
                         end)).
  { unfold Dict.mem. destruct (Hinv k) as (Hm & _). rewrite Hm.
    unfold grouped. change (canonical (det_name x)) with k.
    destruct (of_class dets k); reflexivity. }
  remember (negb (Dict.mem k (mask_by_class st))) as fresh eqn:Efresh.
  destruct (@group_step_dict _ (fun d => binarize (det_mask d))
              (mask_by_class st) dets x _ (fun c => proj1 (Hinv c)) Hfresh)
    as (ms & Hms & Hmask).
  destruct (@group_step_dict _ det_box (box_by_class st) dets x _
              (fun c => proj1 (proj2 (Hinv c))) Hfresh)
    as (bs & Hbs & Hbox).
  destruct (@group_step_dict _ det_conf (conf_by_class st) dets x _
              (fun c => proj2 (proj2 (Hinv c))) Hfresh)
    as (cs & Hcs & Hconf).
  change (canonical (det_name x)) with k in *.
  unfold group_step, x. cbv beta iota. fold k. rewrite <- Efresh. clear Efresh Hfresh.
  destruct fresh; simpl in *;
    rewrite Hms, Hbs, Hcs; simpl;
    (eexists; split; [reflexivity |]);
    intros c; simpl; repeat split;
    [apply Hmask | apply Hbox | apply Hconf
    | apply Hmask | apply Hbox | apply Hconf].
Qed.

Lemma group_loop_spec (l : list det) :
  forall st dets,
    grouping_inv st dets ->
    exists g, ofold group_step l st = Some g /\ grouping_inv g (dets ++ l).
Proof.
  induction l as [| x l IH]; intros st dets Hinv; simpl.
  - exists st. now rewrite app_nil_r.
  - destruct (group_step_spec x Hinv) as (st' & Hstep & Hinv').
    rewrite Hstep. simpl.
    destruct (IH _ _ Hinv') as (g & Hg & Hinvg).
    exists g. split; [exact Hg |]. now rewrite <- app_assoc in Hinvg.
Qed.

Lemma bucket_grouped {V} (f : det -> V) (d : Dict.t (list V))
    (dets : list det) (cname : string) :
  Dict.get cname d = grouped f dets cname ->
  bucket d cname = map f (of_class dets cname).
Proof.
  unfold bucket, Dict.get_or, grouped. intros ->.
  destruct (of_class dets cname); reflexivity.
Qed.

Variable names : nat -> string.

(** The grouping loop never fails, and each bucket holds the detections
    of its category in detector output order. *)
Lemma group_by_class_spec (res : Results F) (raw_masks : list (list F)) :
  exists g,
    group_by_class names res raw_masks = Some g /\
    forall cname,
      bucket (mask_by_class g) cname
        = class_masks (detections names res raw_masks) cname /\
      bucket (box_by_class g) cname
        = class_boxes (detections names res raw_masks) cname /\
      bucket (conf_by_class g) cname
        = class_confs (detections names res raw_masks) cname.
Proof.
  unfold group_by_class.
  destruct (@group_loop_spec (detections names res raw_masks)
              (mkByClass Dict.empty Dict.empty Dict.empty) [])
    as (g & Hg & Hinv).
  { intros c. repeat split. }
  exists g. split; [exact Hg |].
  intros c. simpl in Hinv. destruct (Hinv c) as (Hm & Hb & Hc).
  unfold class_masks, class_boxes, class_confs.
  repeat split; apply bucket_grouped; assumption.
Qed.

End Grouping.

(** ** The Frame Classifier *)

Section FrameClassifier.

Context {F : Type} `{PyNum F}.

Variable names : nat -> string.

Local Open Scope string_scope.
Local Open Scope py_scope.

Local Abbreviation det := (string * list F * Box F * F)%type.


Lemma avg_contact_total (img_diag : F) (gm : option mask)
    (gb : option (Box F)) (ms : list mask) (bs : list (Box F)) :
  List.length ms = List.length bs ->
  exists iou d, avg_contact img_diag gm gb ms bs = Some (iou, d).
Proof.
  intros Hlen. unfold avg_contact.
  destruct gm as [gm |], gb as [gb |], ms as [| m ms]; eauto.
  destruct bs as [| b bs]; [discriminate |].
  destruct (bbox_center gb) as [g_cx g_cy]. simpl. eauto.
Qed.

Lemma contact_score_total (img_diag : F) (dets : list det) (cname : string) :
  exists iou d, contact_score img_diag dets cname = Some (iou, d).
Proof.
  unfold contact_score.
  destruct (merge_gloves _ _) as [gm gb].
  apply avg_contact_total.
  unfold class_masks, class_boxes. now rewrite !length_map.
Qed.

Lemma contact_grouped (img_diag : F) (g : ByClass F) (dets : list det) :
  (forall cname,
      bucket (mask_by_class g) cname = class_masks dets cname /\
      bucket (box_by_class g) cname = class_boxes dets cname /\
      bucket (conf_by_class g) cname = class_confs dets cname) ->
  forall cname, contact img_diag g cname = contact_score img_diag dets cname.
Proof.
  intros Hb cname. unfold contact, contact_score.
  destruct (Hb "gloves") as (-> & -> & _).
  destruct (Hb cname) as (-> & -> & _). reflexivity.
Qed.

Lemma _mean_or_zero_category (dets : list det) (cname : string) :
  _mean_or_zero (class_confs dets cname) = category_confidence dets cname.
Proof.
  unfold _mean_or_zero, category_confidence, len.
  destruct (class_confs dets cname); reflexivity.
Qed.

Lemma len_pos_cons {A} (l : list A) :
  (0 <? len l)%Z = match l with [] => false | _ => true end.
Proof.
  unfold len. destruct l; reflexivity.
Qed.

(** A frame with masks goes through grouping, fusion, the contact scores
    and the rule table, and [_process_single_frame] returns. *)
Lemma process_frame_spec (frame : Frame F) (raw_masks : list (list F)) :
  masks (detect frame) = Some raw_masks ->
  let dets := detections names (detect frame) raw_masks in
  let img_diag := img_diag_of frame in
  exists iou_syr d_syr iou_rub d_rub iou_wip d_wip iou_arm d_arm,
    contact_score img_diag dets "syringe" = Some (iou_syr, d_syr) /\
    contact_score img_diag dets "rubber band" = Some (iou_rub, d_rub) /\
    contact_score img_diag dets "disinfectant wipe" = Some (iou_wip, d_wip) /\
    contact_score img_diag dets "training arm" = Some (iou_arm, d_arm) /\
    let act :=
      activity_rule (class_masks dets "gloves")
        (class_masks dets "training arm") (class_masks dets "syringe")
        (class_masks dets "disinfectant wipe")
        iou_syr d_syr iou_rub d_rub iou_arm in
    _process_single_frame names frame =
    Some {| activity := act;
            confidence :=
              pyround
                (activity_confidence act (class_masks dets "disinfectant wipe")
                   (category_confidence dets "gloves")
                   (category_confidence dets "training arm")
                   (category_confidence dets "syringe")
                   (category_confidence dets "rubber band")
                   (category_confidence dets "disinfectant wipe")) 4 |}.
Proof.
  intros Hm dets img_diag.
  destruct (group_by_class_spec names (detect frame) raw_masks)
    as (g & Hg & Hb).
  fold dets in Hb.
  destruct (contact_score_total img_diag dets "syringe") as (iou_syr & d_syr & Hs).
  destruct (contact_score_total img_diag dets "rubber band") as (iou_rub & d_rub & Hr).
  destruct (contact_score_total img_diag dets "disinfectant wipe")
    as (iou_wip & d_wip & Hw).
  destruct (contact_score_total img_diag dets "training arm") as (iou_arm & d_arm & Ha).
  exists iou_syr, d_syr, iou_rub, d_rub, iou_wip, d_wip, iou_arm, d_arm.
  repeat (split; [assumption |]).
  unfold _process_single_frame. rewrite Hm, Hg. simpl.
  unfold classify. fold img_diag.
  rewrite !(@contact_grouped img_diag g dets Hb), Hs, Hr, Hw, Ha. simpl.
  destruct (Hb "gloves") as (-> & _ & ->).
  destruct (Hb "training arm") as (-> & _ & ->).
  destruct (Hb "syringe") as (-> & _ & ->).
  destruct (Hb "rubber band") as (_ & _ & ->).
  destruct (Hb "disinfectant wipe") as (-> & _ & ->).
  rewrite !_mean_or_zero_category. reflexivity.
Qed.

Lemma process_frame_total (frame : Frame F) :
  exists r, _process_single_frame names frame = Some r.
Proof.
  destruct (masks (detect frame)) as [raw |] eqn:Hm.
  - destruct (process_frame_spec frame Hm)
      as (? & ? & ? & ? & ? & ? & ? & ? & _ & _ & _ & _ & Hr).
    eexists. exact Hr.
  - unfold _process_single_frame. rewrite Hm. eauto.
Qed.

Lemma len_class_masks (dets : list det) (cname : string) :
  len (class_masks dets cname) = Z.of_nat (List.length (of_class dets cname)).
Proof.
  unfold len, class_masks. now rewrite length_map.
Qed.

Lemma activity_rule_no_syringe_veto (GLOVES ARM SYR WIPE : list mask)
    (iou_syr d_syr iou_rub d_rub iou_arm : F) :
  SYR <> [] ->
  activity_rule GLOVES ARM SYR WIPE iou_syr d_syr iou_rub d_rub iou_arm
    <> "Tourniquet".
Proof.
  intros Hs. unfold activity_rule.
  destruct SYR as [| s SYR]; [congruence |].
  replace (len (s :: SYR) =? 0)%Z with false by reflexivity.
  rewrite !andb_false_r.
  destruct (_ && _ && _ && _); discriminate.
Qed.

Lemma activity_confidence_means (dets : list det) (act : string) :
  activity_confidence act (class_masks dets "disinfectant wipe")
    (category_confidence dets "gloves")
    (category_confidence dets "training arm")
    (category_confidence dets "syringe")
    (category_confidence dets "rubber band")
    (category_confidence dets "disinfectant wipe")
  = mean_of_category_means dets act.
Proof.
  unfold activity_confidence, mean_of_category_means.
  rewrite len_pos_cons. unfold class_masks.
  destruct (of_class dets "disinfectant wipe"); reflexivity.
Qed.

(** C1: a frame with masks and at least one syringe detection is never
    classified 'Tourniquet'; if moreover it has at least two glove
    detections, at least one training-arm detection, and the syringe
    contact condition holds (overlap > 0.05 or normalized distance <
    0.12), it is classified 'Injection', whatever the rubber band's
    contact: the rules are an ordered decision list. *)
Theorem injection_has_priority (frame : Frame F) (raw_masks : list (list F)) :
  masks (detect frame) = Some raw_masks ->
  let dets := detections names (detect frame) raw_masks in
  (1 <= List.length (of_class dets "syringe"))%nat ->
  exists r,
    _process_single_frame names frame = Some r /\
    activity r <> "Tourniquet" /\
    ((2 <= List.length (of_class dets "gloves"))%nat ->
     (1 <= List.length (of_class dets "training arm"))%nat ->
     forall iou d,
       contact_score (img_diag_of frame) dets "syringe" = Some (iou, d) ->
       (dec 5 2 <? iou) = true \/ (d <? dec 12 2) = true ->
       activity r = "Injection").
Proof.
  intros Hm dets Hsyr.
  destruct (process_frame_spec frame Hm)
    as (iou_syr & d_syr & iou_rub & d_rub & iou_wip & d_wip & iou_arm & d_arm
        & Hs & _ & _ & _ & Hr).
  fold dets in Hs, Hr.
  eexists. split; [exact Hr |]. simpl. split.
  - apply activity_rule_no_syringe_veto.
    unfold class_masks. destruct (of_class dets "syringe");
      [simpl in Hsyr; lia | discriminate].
  - intros Hglv Harm iou d Hc Hcond.
    rewrite Hs in Hc. inversion Hc; subst iou d.
    unfold activity_rule. rewrite !len_class_masks.
    replace (2 <=? Z.of_nat (List.length (of_class dets "gloves")))%Z
      with true by (symmetry; apply Z.leb_le; lia).
    replace (0 <? Z.of_nat (List.length (of_class dets "training arm")))%Z
      with true by (symmetry; apply Z.ltb_lt; lia).
    replace (0 <? Z.of_nat (List.length (of_class dets "syringe")))%Z
      with true by (symmetry; apply Z.ltb_lt; lia).
    simpl.
    destruct Hcond as [-> | ->]; [| rewrite orb_true_r]; reflexivity.
Qed.


(** C4: [avg_contact] returns exactly (0.0, 1.0), and raises nothing,
    when the fused glove mask or box is absent, whatever the targets, and
    when the target list is empty, whatever the region. *)
Theorem avg_contact_no_contact (img_diag : F) (glove_mask : option mask)
    (glove_box : option (Box F)) (obj_masks : list mask)
    (obj_boxes : list (Box F)) :
  avg_contact img_diag None glove_box obj_masks obj_boxes
    = Some (of_Z 0, of_Z 1) /\
  avg_contact img_diag glove_mask None obj_masks obj_boxes
    = Some (of_Z 0, of_Z 1) /\
  avg_contact img_diag glove_mask glove_box [] obj_boxes
    = Some (of_Z 0, of_Z 1).
Proof.
  unfold avg_contact.
  destruct glove_mask, glove_box; repeat split; reflexivity.
Qed.

(** C7 (amended): the confidence of a frame is the unweighted mean of the
    relevant per-category mean confidences rounded to 4 decimal digits;
    a frame classified 'No clear activity' has confidence 0.0. *)
Theorem frame_confidence_is_rounded_mean (frame : Frame F) :
  exists r,
    _process_single_frame names frame = Some r /\
    (activity r = "No clear activity" -> confidence r = of_Z 0) /\
    match masks (detect frame) with
    | None => activity r = "No clear activity"
    | Some raw_masks =>
        confidence r =
        pyround
          (mean_of_category_means
             (detections names (detect frame) raw_masks) (activity r)) 4
    end.
Proof.
  destruct (masks (detect frame)) as [raw |] eqn:Hm.
  - destruct (process_frame_spec frame Hm)
      as (iou_syr & d_syr & iou_rub & d_rub & iou_wip & d_wip & iou_arm
          & d_arm & _ & _ & _ & _ & Hr).
    eexists. split; [exact Hr |]. simpl.
    rewrite activity_confidence_means. split; [| reflexivity].
    intros ->. apply pyround_zero.
  - unfold _process_single_frame. rewrite Hm.
    eexists. split; [reflexivity |]. simpl. auto.
Qed.

(** C10: a frame with masks and fewer than two detections canonicalized
    as 'gloves' is classified ('No clear activity', 0.0). *)
Theorem fewer_than_two_gloves_no_activity (frame : Frame F)
    (raw_masks : list (list F)) :
  masks (detect frame) = Some raw_masks ->
  (List.length
     (of_class (detections names (detect frame) raw_masks) "gloves") < 2)%nat ->
  _process_single_frame names frame =
  Some {| activity := "No clear activity"; confidence := of_Z 0 |}.
Proof.
  intros Hm Hlt.
  destruct (process_frame_spec frame Hm)
    as (iou_syr & d_syr & iou_rub & d_rub & iou_wip & d_wip & iou_arm
        & d_arm & _ & _ & _ & _ & Hr).
  rewrite Hr. clear Hr.
  assert (Hact : forall ARM SYR WIPE a b c d e,
             activity_rule
               (class_masks (detections names (detect frame) raw_masks) "gloves")
               ARM SYR WIPE a b c d e = "No clear activity").
  { intros. unfold activity_rule. rewrite len_class_masks.
    replace (2 <=? _)%Z with false by (symmetry; apply Z.leb_gt; lia).
    reflexivity. }
  rewrite Hact. unfold activity_confidence. simpl. now rewrite pyround_zero.
Qed.

End FrameClassifier.

(** ** The Window Aggregator *)

Section Window.

Context {F : Type} `{PyNum F}.

Variable names : nat -> string.

Local Open Scope string_scope.
Local Open Scope py_scope.


Lemma split_map {A B} (l : list (A * B)) :
  List.split l = (map fst l, map snd l).
Proof.
  induction l as [| [a b] l IH]; simpl; [reflexivity |].
  now rewrite IH.
Qed.

Lemma combine_fst_snd {A B} (l : list (A * B)) :
  combine (map fst l) (map snd l) = l.
Proof.
  induction l as [| [a b] l IH]; simpl; [reflexivity |].
  now rewrite IH.
Qed.

Lemma filter_of_filter {A} (p q : A -> bool) (l : list A) :
  (forall x, p x = true -> q x = true) ->
  filter p (filter q l) = filter p l.
Proof.
  intros Himp. induction l as [| x l IH]; simpl; [reflexivity |].
  destruct (q x) eqn:Eq; simpl.
  - now rewrite IH.
  - destruct (p x) eqn:Ep; [| exact IH].
    apply Himp in Ep. congruence.
Qed.

Lemma surviving_label (activities : list string) (confidences : list F)
    (a : string) :
  In a (map fst (surviving activities confidences)) ->
  a <> "No clear activity".
Proof.
  intros Hin. apply in_map_iff in Hin. destruct Hin as ([a' c] & <- & Hin).
  apply filter_In in Hin. destruct Hin as [_ Hp]. simpl.
  apply negb_true_iff in Hp. now apply String.eqb_neq.
Qed.

(** The vote of lines 138-155 on a window with a surviving result *)
Lemma aggregate_spec (activities : list string) (confidences : list F) :
  let labels := map fst (surviving activities confidences) in
  labels <> [] ->
  exists m,
    aggregate activities confidences =
    Some {| activity := m;
            confidence :=
              robust_confidence
                (supporting m (combine activities confidences)) |} /\
    (forall a, votes labels a <= votes labels m)%nat /\
    exists pre post,
      labels = (pre ++ m :: post)%list /\ ~ In m pre /\
      forall a, In a pre -> (votes labels a < votes labels m)%nat.
Proof.
  intros labels Hne.
  destruct (main_act_spec Hne) as (m & c & Hmc & _ & Hmax & Hfirst).
  exists m. split; [| split; assumption].
  assert (Hm : m <> "No clear activity").
  { apply (@surviving_label activities confidences).
    destruct Hfirst as (pre & post & Hl & _). fold labels. rewrite Hl.
    apply in_or_app. right. now left. }
  assert (Hf : filter (fun '(a, _) => a =? m) (surviving activities confidences)
               = filter (fun r : string * F => fst r =? m)
                   (combine activities confidences)).
  { unfold surviving. rewrite filter_of_filter.
    - apply filter_ext. now intros [a c'].
    - intros [a c'] Ha. apply String.eqb_eq in Ha. subst a.
      apply negb_true_iff. now apply String.eqb_neq. }
  clear Hmax Hfirst.
  unfold aggregate. fold (surviving activities confidences).
  unfold labels in Hmc, Hne. clear labels.
  destruct (surviving activities confidences) as [| p l] eqn:Es;
    [now elim Hne |].
  rewrite split_map. cbv beta iota zeta.
  rewrite Hmc.
  cbv beta iota zeta delta [obind].
  rewrite combine_fst_snd, Hf. reflexivity.
Qed.

Lemma Forall2_in_right {A B} (R : A -> B -> Prop) (l : list A)
    (l' : list B) (y : B) :
  Forall2 R l l' -> In y l' -> exists x, In x l /\ R x y.
Proof.
  induction 1 as [| x y' l l' Hxy _ IH]; intros Hin; [destruct Hin |].
  destruct Hin as [<- | Hin].
  - exists x. split; [now left | exact Hxy].
  - destruct (IH Hin) as (x' & Hx' & Hr). exists x'. split; [now right | exact Hr].
Qed.

Lemma surviving_none (activities : list string) (confidences : list F) :
  (forall a, In a activities -> a = "No clear activity") ->
  surviving activities confidences = [].
Proof.
  intros Hall. unfold surviving.
  revert confidences.
  induction activities as [| a activities IH]; intros [| c confidences];
    simpl; try reflexivity.
  rewrite (Hall a) by now left. simpl.
  apply IH. intros a' Ha'. apply Hall. now right.
Qed.

(** The loop over the frames returns, with one result per frame. *)
Lemma frames_loop_spec (frame_list : list (Frame F)) :
  forall frame_id activities confidences,
  exists rs,
    Forall2 (fun frame r => _process_single_frame names frame = Some r)
      frame_list rs /\
    frames_loop names frame_id frame_list activities confidences =
    (Some ((activities ++ map activity rs)%list,
           (confidences ++ map confidence rs)%list),
     (frame_id + List.length frame_list)%nat).
Proof.
  induction frame_list as [| frame frame_list IH];
    intros frame_id activities confidences.
  - exists []. simpl. rewrite !app_nil_r, Nat.add_0_r.
    split; [constructor | reflexivity].
  - destruct (process_frame_total names frame) as (r & Hr).
    destruct (IH (frame_id + 1)%nat (activities ++ [activity r])%list
                (confidences ++ [confidence r])%list) as (rs & Hrs & Hloop).
    exists (r :: rs). split; [now constructor |].
    simpl. rewrite Hr, Hloop, <- !app_assoc. simpl.
    f_equal. lia.
Qed.

(** C5 (amended): [infer_frames] on zero frames returns ('No frames',
    0.0), while [model_inference] on zero frames returns the error 'No
    image found!' without calling it; on a non-empty window whose frames
    are all classified 'No clear activity' both return ('No detection',
    0.0).  None of these calls raises. *)
Theorem window_sentinels (frame_id : nat) :
  fst (infer_frames names frame_id []) =
    Some {| activity := "No frames"; confidence := of_Z 0 |} /\
  fst (model_inference names frame_id [] true) =
    Some (Error "No image found!") /\
  forall frame_list,
    frame_list <> [] ->
    (forall frame, In frame frame_list ->
       exists r, _process_single_frame names frame = Some r /\
                 activity r = "No clear activity") ->
    fst (infer_frames names frame_id frame_list) =
      Some {| activity := "No detection"; confidence := of_Z 0 |} /\
    fst (model_inference names frame_id frame_list true) =
      Some (Answer {| activity := "No detection"; confidence := of_Z 0 |}).
Proof.
  split; [reflexivity |]. split; [reflexivity |].
  intros frame_list Hne Hall.
  assert (Hinf : fst (infer_frames names frame_id frame_list) =
                 Some {| activity := "No detection"; confidence := of_Z 0 |}).
  { destruct frame_list as [| frame frame_list]; [congruence |].
    unfold infer_frames.
    destruct (frames_loop_spec (frame :: frame_list) frame_id [] [])
      as (rs & Hrs & ->).
    simpl fst. simpl obind. unfold aggregate.
    fold (surviving (map activity rs) (map confidence rs)).
    rewrite surviving_none; [reflexivity |].
    intros a Ha. apply in_map_iff in Ha. destruct Ha as (r & <- & Hr).
    destruct (@Forall2_in_right _ _ _ _ _ r Hrs Hr) as (fr & Hfr & Hpr).
    destruct (Hall fr Hfr) as (r' & Hr' & Hact).
    congruence. }
  split; [exact Hinf |].
  unfold model_inference.
  destruct frame_list as [| frame frame_list]; [congruence |].
  destruct (infer_frames names frame_id (frame :: frame_list)) as [res fid].
  simpl in *. now rewrite Hinf.
Qed.

(** C8: on a window with a surviving result the aggregator returns a
    label with the most votes, and no label with as many votes is met, in
    frame order, before the returned one: a tie goes to the tied label
    encountered first. *)
Theorem tie_goes_to_first_encountered (activities : list string)
    (confidences : list F) :
  let labels := map fst (surviving activities confidences) in
  labels <> [] ->
  exists r,
    aggregate activities confidences = Some r /\
    (forall a, votes labels a <= votes labels (activity r))%nat /\
    exists pre post,
      labels = (pre ++ activity r :: post)%list /\
      ~ In (activity r) pre /\
      forall a, votes labels a = votes labels (activity r) -> ~ In a pre.
Proof.
  intros labels Hne.
  destruct (aggregate_spec activities confidences Hne)
    as (m & Hagg & Hmax & pre & post & Hl & Hnin & Hpre).
  eexists. split; [exact Hagg |]. simpl. split; [exact Hmax |].
  exists pre, post. split; [exact Hl |]. split; [exact Hnin |].
  intros a Ha Hin. apply Hpre in Hin. fold labels in Hin. lia.
Qed.

End Window.

(** ** The Contact Metric under exact arithmetic *)


Lemma exact_is_exact : ExactArith exact.
Proof.
  constructor; simpl; unfold Exact.ltb, Exact.leb; intros.
  - apply Rplus_comm.
  - apply Rplus_assoc.
  - destruct (Rle_dec a a); [reflexivity | exfalso; lra].
  - destruct (Rlt_dec a b); [| discriminate].
    destruct (Rlt_dec b a); [exfalso; lra | reflexivity].
  - destruct (Rlt_dec a b); [| discriminate].
    destruct (Rlt_dec b c); [| discriminate].
    destruct (Rlt_dec a c); [reflexivity | exfalso; lra].
  - destruct (Rlt_dec a b); [discriminate |].
    destruct (Rlt_dec b a); [discriminate |]. lra.
Qed.

Section OrderIndependence.

Context {F : Type} {N : PyNum F} {E : ExactArith N}.

Local Open Scope py_scope.


Lemma flt_negtrans (a b c : F) :
  (a <? b) = false -> (b <? c) = false -> (a <? c) = false.
Proof.
  intros Hab Hbc.
  destruct (a <? c) eqn:Hac; [| reflexivity].
  destruct (b <? a) eqn:Hba.
  - rewrite (flt_trans _ _ _ Hba Hac) in Hbc. discriminate.
  - rewrite <- (flt_total _ _ Hab Hba) in Hbc. congruence.
Qed.








End OrderIndependence.


Local Open Scope string_scope.

(** ** Claims with a worked example *)



(** ** Counterexamples *)

(** C5 as stated fails at the entry point: on zero frames [model_inference]
    answers with an error dict, not with ('No frames', 0.0). *)
Lemma entry_point_zero_frames_counterexample :
  fst (model_inference (F:=float) Examples.names 0 [] true)
    = Some (Error "No image found!") /\
  fst (model_inference (F:=float) Examples.names 0 [] true)
    <> Some (Answer {| activity := "No frames"; confidence := of_Z 0 |}).
Proof.
  split; [reflexivity | discriminate].
Qed.

(** C7 as stated fails on the frame [Examples.both_objects]: the category
    means are 0.5 (gloves), 0.5 (arm) and 0.75 (syringe), their mean is
    1.75/3 = 0.58333..., and the frame's confidence is 0.5833. *)
Lemma frame_confidence_counterexample :
  _process_single_frame Examples.names Examples.both_objects
    = Some {| activity := "Injection"; confidence := dec 5833 4 |} /\
  mean_of_category_means Examples.both_objects_dets "Injection"
    = (dec 175 2 / of_Z 3)%py /\
  dec 5833 4 <> (dec 175 2 / of_Z 3)%py :> float.
Proof.
  split; [vm_compute; reflexivity |]. split; [vm_compute; reflexivity |].
  intros E.
  apply (f_equal (fun x : float => PrimFloat.eqb x (dec 5833 4))) in E.
  vm_compute in E. discriminate.
Qed.


(** ** The theorems at concrete frames and windows *)

Lemma injection_has_priority_witness :
  masks (detect Examples.both_objects) = Some Examples.both_objects_masks /\
  (1 <= List.length (of_class Examples.both_objects_dets "syringe"))%nat /\
  (2 <= List.length (of_class Examples.both_objects_dets "gloves"))%nat /\
  (1 <= List.length (of_class Examples.both_objects_dets "training arm"))%nat /\
  (exists iou d,
      contact_score (img_diag_of Examples.both_objects)
        Examples.both_objects_dets "syringe" = Some (iou, d) /\
      (dec 5 2 <? iou)%py = true) /\
  (exists iou d,
      contact_score (img_diag_of Examples.both_objects)
        Examples.both_objects_dets "rubber band" = Some (iou, d) /\
      (dec 5 2 <? iou)%py = true /\ (d <? dec 12 2)%py = true) /\
  exists r,
    _process_single_frame Examples.names Examples.both_objects = Some r /\
    activity r = "Injection" /\ activity r <> "Tourniquet".
Proof.
  assert (Hsyr : (1 <= List.length
                         (of_class Examples.both_objects_dets "syringe"))%nat)
    by (vm_compute; lia).
  assert (Hglv : (2 <= List.length
                         (of_class Examples.both_objects_dets "gloves"))%nat)
    by (vm_compute; lia).
  assert (Harm : (1 <= List.length
                         (of_class Examples.both_objects_dets "training arm"))%nat)
    by (vm_compute; lia).
  split; [reflexivity |]. do 3 (split; [assumption |]).
  split; [do 2 eexists; split; vm_compute; reflexivity |].
  split; [do 2 eexists; repeat split; vm_compute; reflexivity |].
  destruct (@injection_has_priority float binary64 Examples.names
              Examples.both_objects Examples.both_objects_masks eq_refl Hsyr)
    as (r & Hr & Hveto & Hinj).
  exists r. split; [exact Hr |]. split; [| exact Hveto].
  eapply (Hinj Hglv Harm); [vm_compute; reflexivity |].
  left. vm_compute. reflexivity.
Defined.

Lemma fewer_than_two_gloves_witness :
  masks (detect Examples.one_glove) = Some Examples.one_glove_masks /\
  (List.length (of_class Examples.one_glove_dets "gloves") < 2)%nat /\
  (1 <= List.length (of_class Examples.one_glove_dets "syringe"))%nat /\
  _process_single_frame Examples.names Examples.one_glove
    = Some {| activity := "No clear activity"; confidence := of_Z 0 |}.
Proof.
  assert (Hglv : (List.length (of_class Examples.one_glove_dets "gloves") < 2)%nat)
    by (vm_compute; lia).
  split; [reflexivity |]. split; [exact Hglv |].
  split; [vm_compute; lia |].
  exact (@fewer_than_two_gloves_no_activity float binary64 Examples.names
           Examples.one_glove Examples.one_glove_masks eq_refl Hglv).
Defined.

Lemma window_sentinels_witness :
  (forall frame, In frame [Examples.no_masks; Examples.one_glove] ->
     exists r, _process_single_frame Examples.names frame = Some r /\
               activity r = "No clear activity") /\
  fst (infer_frames Examples.names 0 [Examples.no_masks; Examples.one_glove])
    = Some {| activity := "No detection"; confidence := of_Z 0 |} /\
  fst (model_inference Examples.names 0
         [Examples.no_masks; Examples.one_glove] true)
    = Some (Answer {| activity := "No detection"; confidence := of_Z 0 |}).
Proof.
  assert (Hall : forall frame,
             In frame [Examples.no_masks; Examples.one_glove] ->
             exists r, _process_single_frame Examples.names frame = Some r /\
                       activity r = "No clear activity").
  { intros frame [<- | [<- | []]]; eexists;
      (split; [vm_compute; reflexivity | reflexivity]). }
  split; [exact Hall |].
  apply (proj2 (proj2 (@window_sentinels float binary64 Examples.names 0)));
    [discriminate | exact Hall].
Defined.

Lemma tie_goes_to_first_encountered_witness :
  map fst (surviving Examples.tied_activities Examples.tied_confidences)
    = ["Tourniquet"; "Injection"; "Injection"; "Tourniquet"] /\
  aggregate Examples.tied_activities Examples.tied_confidences
    = Some {| activity := "Tourniquet"; confidence := dec 6 1 |} /\
  exists r,
    aggregate Examples.tied_activities Examples.tied_confidences = Some r /\
    exists pre post,
      map fst (surviving Examples.tied_activities Examples.tied_confidences)
        = (pre ++ activity r :: post)%list /\
      ~ In "Injection" pre.
Proof.
  split; [vm_compute; reflexivity |]. split; [vm_compute; reflexivity |].
  assert (Hne : map fst (surviving Examples.tied_activities
                           Examples.tied_confidences) <> [])
    by (vm_compute; discriminate).
  destruct (@tie_goes_to_first_encountered float binary64
              Examples.tied_activities Examples.tied_confidences Hne)
    as (r & Hr & Hmax & pre & post & Hl & _ & Htie).
  exists r. split; [exact Hr |]. exists pre, post. split; [exact Hl |].
  apply Htie.
  assert (Hact : activity r = "Tourniquet").
  { assert (E : Some r = Some {| activity := "Tourniquet"; confidence := dec 6 1 |})
      by (rewrite <- Hr; vm_compute; reflexivity).
    inversion E. reflexivity. }
  rewrite Hact. vm_compute. reflexivity.
Defined.



(** * Further properties of the code *)

(** ** The rule table of [_process_single_frame] *)

Section FrameRules.

Context {F : Type} `{PyNum F}.

Variable names : nat -> string.

Local Open Scope string_scope.
Local Open Scope py_scope.

Local Abbreviation det := (string * list F * Box F * F)%type.

Lemma nonempty_len {A} (l : list A) :
  (0 <? len l)%Z = true <-> (1 <= List.length l)%nat.
Proof.
  unfold len. rewrite Z.ltb_lt. lia.
Qed.

Lemma two_len {A} (l : list A) :
  (2 <=? len l)%Z = true <-> (2 <= List.length l)%nat.
Proof.
  unfold len. rewrite Z.leb_le. lia.
Qed.

Lemma activity_rule_decision (GLOVES ARM SYR WIPE : list mask)
    (iou_syr d_syr iou_rub d_rub iou_arm : F) :
  activity_rule GLOVES ARM SYR WIPE iou_syr d_syr iou_rub d_rub iou_arm =
  let hands_on_arm := (2 <=? len GLOVES)%Z && (0 <? len ARM)%Z in
  let syringe := (0 <? len SYR)%Z in
  if hands_on_arm && syringe && ((dec 5 2 <? iou_syr) || (d_syr <? dec 12 2))
  then "Injection"
  else if hands_on_arm && negb syringe
          && ((dec 5 2 <? iou_rub) || (d_rub <? dec 12 2))
  then "Tourniquet"
  else if hands_on_arm && negb syringe
          && ((0 <? len WIPE)%Z || (dec 1 2 <? iou_arm))
  then "Disinfection"
  else "No clear activity".
Proof.
  unfold activity_rule. cbv zeta.
  destruct SYR as [| s SYR].
  - change (0 <? len (@nil mask))%Z with false.
    change (len (@nil mask) =? 0)%Z with true.
    destruct (2 <=? len GLOVES)%Z, (0 <? len ARM)%Z,
      ((dec 5 2 <? iou_rub) || (d_rub <? dec 12 2)),
      ((0 <? len WIPE)%Z || (dec 1 2 <? iou_arm)); reflexivity.
  - replace (0 <? len (s :: SYR))%Z with true by reflexivity.
    replace (len (s :: SYR) =? 0)%Z with false by reflexivity.
    destruct (2 <=? len GLOVES)%Z, (0 <? len ARM)%Z,
      ((dec 5 2 <? iou_syr) || (d_syr <? dec 12 2)),
      ((dec 5 2 <? iou_rub) || (d_rub <? dec 12 2)); reflexivity.
Qed.

(** The label of a frame with masks, as a decision list over its
    detections by category *)
Lemma frame_label_spec (frame : Frame F) (raw_masks : list (list F)) :
  masks (detect frame) = Some raw_masks ->
  let dets := detections names (detect frame) raw_masks in
  let score := contact_score (img_diag_of frame) dets in
  let present cname := (0 <? len (of_class dets cname))%Z in
  let hands_on_arm :=
    (2 <=? len (of_class dets "gloves"))%Z && present "training arm" in
  exists r,
    _process_single_frame names frame = Some r /\
    activity r =
    if hands_on_arm && present "syringe" && touching (score "syringe")
    then "Injection"
    else if hands_on_arm && negb (present "syringe")
            && touching (score "rubber band")
    then "Tourniquet"
    else if hands_on_arm && negb (present "syringe")
            && (present "disinfectant wipe"
                || overlapping (score "training arm"))
    then "Disinfection"
    else "No clear activity".
Proof.
  intros Hm dets score present hands_on_arm.
  destruct (process_frame_spec names frame Hm)
    as (iou_syr & d_syr & iou_rub & d_rub & iou_wip & d_wip & iou_arm & d_arm
        & Hs & Hr & _ & Ha & Hres).
  fold dets in Hs, Hr, Ha, Hres. fold score in Hs, Hr, Ha.
  eexists. split; [exact Hres |]. simpl.
  rewrite activity_rule_decision.
  subst hands_on_arm present. cbv beta zeta.
  rewrite Hs, Hr, Ha. unfold touching, overlapping.
  rewrite !len_class_masks. unfold len. reflexivity.
Qed.

Lemma empty_len {A} (l : list A) :
  (0 <? len l)%Z = false <-> List.length l = 0%nat.
Proof.
  unfold len. rewrite Z.ltb_ge. lia.
Qed.

Lemma decision_list_labels (h s ts tr w : bool) :
  let label :=
    if h && s && ts then "Injection"
    else if h && negb s && tr then "Tourniquet"
    else if h && negb s && w then "Disinfection"
    else "No clear activity" in
  In label ["Injection"; "Tourniquet"; "Disinfection"; "No clear activity"] /\
  (label = "Injection" <-> h && s && ts = true) /\
  (label = "Tourniquet" <-> h && negb s && tr = true) /\
  (label = "Disinfection" <-> h && negb s && negb tr && w = true).
Proof.
  destruct h, s, ts, tr, w; simpl;
    repeat split; intros; try discriminate; tauto.
Qed.

(** X1: the label of a frame with masks is one of the four labels, and
    each activity is characterised by the detections: 'Injection' needs two
    gloves, the arm, a syringe and syringe contact; 'Tourniquet' needs two
    gloves, the arm, no syringe and rubber-band contact; 'Disinfection'
    needs two gloves, the arm, no syringe, no rubber-band contact, and a
    wipe or an arm overlap above 0.01. *)
Theorem frame_label_characterised (frame : Frame F)
    (raw_masks : list (list F)) :
  masks (detect frame) = Some raw_masks ->
  let dets := detections names (detect frame) raw_masks in
  let score := contact_score (img_diag_of frame) dets in
  let n cname := List.length (of_class dets cname) in
  let hands_on_arm := (2 <= n "gloves")%nat /\ (1 <= n "training arm")%nat in
  exists r,
    _process_single_frame names frame = Some r /\
    In (activity r)
       ["Injection"; "Tourniquet"; "Disinfection"; "No clear activity"] /\
    (activity r = "Injection" <->
     hands_on_arm /\ (1 <= n "syringe")%nat /\
     touching (score "syringe") = true) /\
    (activity r = "Tourniquet" <->
     hands_on_arm /\ n "syringe" = 0%nat /\
     touching (score "rubber band") = true) /\
    (activity r = "Disinfection" <->
     hands_on_arm /\ n "syringe" = 0%nat /\
     touching (score "rubber band") = false /\
     ((1 <= n "disinfectant wipe")%nat \/
      overlapping (score "training arm") = true)).
Proof.
  intros Hm dets score n hands_on_arm.
  destruct (frame_label_spec frame Hm) as (r & Hr & Hact).
  fold dets in Hact. fold score in Hact.
  exists r. split; [exact Hr |].
  subst hands_on_arm n. cbv beta.
  destruct (decision_list_labels
              ((2 <=? len (of_class dets "gloves"))%Z
               && (0 <? len (of_class dets "training arm"))%Z)
              (0 <? len (of_class dets "syringe"))%Z
              (touching (score "syringe"))
              (touching (score "rubber band"))
              ((0 <? len (of_class dets "disinfectant wipe"))%Z
               || overlapping (score "training arm")))
    as (Hrange & Hinj & Htou & Hdis).
  cbv zeta in Hrange, Hinj, Htou, Hdis.
  rewrite <- Hact in Hrange, Hinj, Htou, Hdis.
  split; [exact Hrange |].
  rewrite Hinj, Htou, Hdis.
  rewrite !andb_true_iff, orb_true_iff, !negb_true_iff.
  rewrite two_len, !nonempty_len, empty_len.
  tauto.
Qed.

Lemma frame_label_range (frame : Frame F) :
  exists r,
    _process_single_frame names frame = Some r /\
    In (activity r)
       ["Injection"; "Tourniquet"; "Disinfection"; "No clear activity"].
Proof.
  destruct (masks (detect frame)) as [raw |] eqn:Hm.
  - destruct (frame_label_spec frame Hm) as (r & Hr & Hact).
    exists r. split; [exact Hr |]. rewrite Hact.
    repeat match goal with
           | |- context [if ?b then _ else _] => destruct b
           end; simpl; tauto.
  - unfold _process_single_frame. rewrite Hm.
    eexists. split; [reflexivity |]. simpl. tauto.
Qed.

Lemma unclear_frame_confidence (frame : Frame F) (r : Result F) :
  _process_single_frame names frame = Some r ->
  activity r = "No clear activity" ->
  r = {| activity := "No clear activity"; confidence := of_Z 0 |}.
Proof.
  intros Hr Hact.
  destruct (masks (detect frame)) as [raw |] eqn:Hm.
  - destruct (process_frame_spec names frame Hm)
      as (? & ? & ? & ? & ? & ? & ? & ? & _ & _ & _ & _ & Hres).
    rewrite Hr in Hres. inversion Hres as [Heq]. rewrite Heq in Hact.
    simpl in Hact. simpl. rewrite Hact. unfold activity_confidence. simpl.
    now rewrite pyround_zero.
  - unfold _process_single_frame in Hr. rewrite Hm in Hr. now inversion Hr.
Qed.

(** X2: a frame with masks and no detection canonicalized as 'training
    arm' is classified ('No clear activity', 0.0), whatever else it shows. *)
Theorem no_arm_no_activity (frame : Frame F) (raw_masks : list (list F)) :
  masks (detect frame) = Some raw_masks ->
  of_class (detections names (detect frame) raw_masks) "training arm" = [] ->
  _process_single_frame names frame =
  Some {| activity := "No clear activity"; confidence := of_Z 0 |}.
Proof.
  intros Hm Harm.
  destruct (frame_label_spec frame Hm) as (r & Hr & Hact).
  rewrite Harm in Hact. change (0 <? len (@nil det))%Z with false in Hact.
  rewrite andb_false_r in Hact. simpl in Hact.
  rewrite Hr. f_equal. now apply (unclear_frame_confidence frame).
Qed.

(** X3: a frame with masks and at least one syringe detection is
    classified 'Injection' or 'No clear activity': a syringe in view rules
    out both 'Tourniquet' and 'Disinfection'. *)
Theorem syringe_in_view_injection_or_nothing (frame : Frame F)
    (raw_masks : list (list F)) :
  masks (detect frame) = Some raw_masks ->
  of_class (detections names (detect frame) raw_masks) "syringe" <> [] ->
  exists r,
    _process_single_frame names frame = Some r /\
    (activity r = "Injection" \/
     r = {| activity := "No clear activity"; confidence := of_Z 0 |}).
Proof.
  intros Hm Hsyr.
  destruct (frame_label_spec frame Hm) as (r & Hr & Hact).
  exists r. split; [exact Hr |].
  destruct (of_class (detections names (detect frame) raw_masks) "syringe")
    as [| s l] eqn:Es; [congruence |].
  replace (0 <? len (s :: l))%Z with true in Hact by reflexivity.
  simpl negb in Hact. rewrite !andb_false_r in Hact. simpl in Hact.
  rewrite andb_true_r in Hact.
  destruct (_ && _ && touching _) in Hact; [now left | right].
  now apply (unclear_frame_confidence frame).
Qed.

(** X4: in an arithmetic where the 'no contact' score (0.0, 1.0) is not a
    contact (0.05 < 0.0 and 1.0 < 0.12 are both false), a frame classified
    'Tourniquet' has at least one rubber-band detection. *)
Theorem tourniquet_needs_a_rubber_band (frame : Frame F)
    (raw_masks : list (list F)) (r : Result F) :
  touching (Some (of_Z 0, of_Z 1)) = false ->
  masks (detect frame) = Some raw_masks ->
  _process_single_frame names frame = Some r ->
  activity r = "Tourniquet" ->
  (1 <= List.length
          (of_class (detections names (detect frame) raw_masks) "rubber band"))%nat.
Proof.
  intros Hno Hm Hr Hact.
  destruct (frame_label_spec frame Hm) as (r' & Hr' & Hact').
  rewrite Hr in Hr'. inversion Hr'. subst r'. rewrite Hact in Hact'.
  destruct (of_class (detections names (detect frame) raw_masks) "rubber band")
    as [| b l] eqn:Eb; [exfalso | simpl; lia].
  assert (Hscore : contact_score (img_diag_of frame)
                     (detections names (detect frame) raw_masks) "rubber band"
                   = Some (of_Z 0, of_Z 1)).
  { unfold contact_score, class_masks, class_boxes. rewrite Eb.
    destruct (merge_gloves _ _) as [gm gb]. unfold avg_contact.
    destruct gm, gb; reflexivity. }
  rewrite Hscore, Hno in Hact'. rewrite !andb_false_r in Hact'.
  repeat match type of Hact' with
         | context [if ?b then _ else _] => destruct b
         end; discriminate.
Qed.

End FrameRules.

(** ** The window: labels, the frame counter, unclear frames *)

Section WindowRules.

Context {F : Type} `{PyNum F}.

Variable names : nat -> string.

Local Open Scope string_scope.
Local Open Scope py_scope.

Lemma surviving_label_in (activities : list string) (confidences : list F)
    (a : string) :
  In a (map fst (surviving activities confidences)) -> In a activities.
Proof.
  intros Hin. apply in_map_iff in Hin. destruct Hin as ([a' c] & <- & Hin).
  apply filter_In in Hin. destruct Hin as [Hin _].
  now apply in_combine_l in Hin.
Qed.

Lemma aggregate_label (activities : list string) (confidences : list F) :
  exists r,
    aggregate activities confidences = Some r /\
    (activity r = "No detection" \/
     (In (activity r) activities /\ activity r <> "No clear activity")).
Proof.
  destruct (map fst (surviving activities confidences)) as [| a l] eqn:El.
  - unfold aggregate. fold (surviving activities confidences).
    destruct (surviving activities confidences); [| discriminate].
    eexists. split; [reflexivity |]. now left.
  - assert (Hne : map fst (surviving activities confidences) <> [])
      by (rewrite El; discriminate).
    destruct (aggregate_spec activities confidences Hne)
      as (m & Hagg & _ & pre & post & Hl & _).
    eexists. split; [exact Hagg |]. right. simpl.
    assert (Hin : In m (map fst (surviving activities confidences)))
      by (rewrite Hl; apply in_or_app; right; now left).
    split; [now apply (surviving_label_in _ _ _ Hin) |].
    now apply (@surviving_label F activities confidences).
Qed.

(** A non-empty window: [infer_frames] returns a label that is 'No
    detection' or an activity, and [model_inference] hands it on. *)
Lemma window_nonempty_spec (frame_id : nat) (frame_list : list (Frame F)) :
  frame_list <> [] ->
  exists r,
    fst (infer_frames names frame_id frame_list) = Some r /\
    fst (model_inference names frame_id frame_list true) = Some (Answer r) /\
    In (activity r) ["No detection"; "Injection"; "Tourniquet"; "Disinfection"].
Proof.
  intros Hne. destruct frame_list as [| frame frame_list]; [congruence |].
  unfold model_inference, infer_frames.
  destruct (frames_loop_spec names (frame :: frame_list) frame_id [] [])
    as (rs & Hrs & ->).
  simpl fst. cbv beta iota delta [obind]. simpl app.
  destruct (aggregate_label (map activity rs) (map confidence rs))
    as (r & Hagg & Hlabel).
  exists r. rewrite Hagg. simpl fst. repeat split.
  destruct Hlabel as [-> | [Hin Hnc]]; [simpl; tauto |].
  apply in_map_iff in Hin. destruct Hin as (r0 & Heq & Hin).
  destruct (@Forall2_in_right _ _ _ _ _ r0 Hrs Hin) as (fr & _ & Hfr).
  destruct (frame_label_range names fr) as (r1 & Hr1 & Hran).
  rewrite Hfr in Hr1. inversion Hr1. subst r1.
  rewrite Heq in Hran. simpl in Hran. simpl.
  destruct Hran as [E | [E | [E | [E | []]]]]; auto. congruence.
Qed.



(** X7: [model_inference] with [use_raul] answers a non-empty frame list
    with the result of [infer_frames], never with an error and never with
    'No frames'; the error 'No image found!' is its answer to the empty
    list only. *)
Theorem model_inference_answers (frame_id : nat) (frame_list : list (Frame F)) :
  (fst (model_inference names frame_id frame_list true)
     = Some (Error "No image found!") <-> frame_list = []) /\
  (frame_list <> [] ->
   exists r,
     fst (infer_frames names frame_id frame_list) = Some r /\
     fst (model_inference names frame_id frame_list true) = Some (Answer r) /\
     activity r <> "No frames").
Proof.
  split.
  - split.
    + intros Herr. destruct frame_list as [| frame frame_list]; [reflexivity |].
      destruct (@window_nonempty_spec frame_id (frame :: frame_list))
        as (r & _ & Hans & _); [discriminate |].
      rewrite Hans in Herr. discriminate.
    + intros ->. reflexivity.
  - intros Hne.
    destruct (window_nonempty_spec frame_id Hne) as (r & Hr & Hans & Hran).
    exists r. repeat split; try assumption.
    intros E. rewrite E in Hran. simpl in Hran.
    destruct Hran as [E' | [E' | [E' | [E' | []]]]]; discriminate.
Qed.

Lemma combine_app_same {A B} (l1 l2 : list A) (k1 k2 : list B) :
  List.length l1 = List.length k1 ->
  combine (l1 ++ l2) (k1 ++ k2) = (combine l1 k1 ++ combine l2 k2)%list.
Proof.
  revert k1. induction l1 as [| a l1 IH]; intros [| b k1] Hlen;
    simpl in *; try discriminate; [reflexivity |].
  f_equal. apply IH. lia.
Qed.

(** X8: a frame result labeled 'No clear activity' has no influence on the
    window: wherever it stands and whatever its confidence, the window's
    result is that of the window without it. *)
Theorem unclear_frames_do_not_vote (acts1 acts2 : list string)
    (confs1 confs2 : list F) (c : F) :
  List.length acts1 = List.length confs1 ->
  aggregate (acts1 ++ "No clear activity" :: acts2) (confs1 ++ c :: confs2)
  = aggregate (acts1 ++ acts2) (confs1 ++ confs2).
Proof.
  intros Hlen. unfold aggregate.
  rewrite !combine_app_same by assumption.
  rewrite !filter_app. simpl. reflexivity.
Qed.

End WindowRules.

(** ** Bounds of the scores, in exact arithmetic *)

Section ExactBounds.

Local Open Scope R_scope.

Lemma ltb_exact (a b : R) : flt a b = true <-> a < b.
Proof.
  simpl. unfold Exact.ltb. destruct (Rlt_dec a b); split; auto; discriminate.
Qed.

Lemma ltb_exact_false (a b : R) : flt a b = false <-> b <= a.
Proof.
  simpl. unfold Exact.ltb.
  destruct (Rlt_dec a b); split; auto; try discriminate; lra.
Qed.

Lemma py_max_exact (a b : R) : py_max a b = Rmax a b.
Proof.
  unfold py_max, Rmax. simpl. unfold Exact.ltb.
  destruct (Rlt_dec a b), (Rle_dec a b); try reflexivity; lra.
Qed.

Lemma py_min_exact (a b : R) : py_min a b = Rmin a b.
Proof.
  unfold py_min, Rmin. simpl. unfold Exact.ltb.
  destruct (Rlt_dec b a), (Rle_dec a b); try reflexivity; lra.
Qed.

Lemma dec_exact (n : Z) (k : nat) :
  @dec R exact n k = IZR n / IZR (10 ^ Z.of_nat k).
Proof.
  reflexivity.
Qed.

Lemma compute_iou_exact (a b : Box R) :
  compute_iou a b =
  if Rle_dec (inter_w a b * inter_h a b) 0 then 0
  else inter_w a b * inter_h a b
       / ((b2 a - b0 a) * (b3 a - b1 a) + (b2 b - b0 b) * (b3 b - b1 b)
          - inter_w a b * inter_h a b + 1 / 1000000).
Proof.
  unfold compute_iou. rewrite !py_max_exact, !py_min_exact.
  fold (inter_w a b) (inter_h a b).
  simpl. unfold Exact.leb.
  change (Rmax 0 (Rmin (b2 a) (b2 b) - Rmax (b0 a) (b0 b))) with (inter_w a b).
  change (Rmax 0 (Rmin (b3 a) (b3 b) - Rmax (b1 a) (b1 b))) with (inter_h a b).
  destruct (Rle_dec (inter_w a b * inter_h a b) 0); reflexivity.
Qed.

Lemma Rmax_0_cases (x : R) :
  0 <= Rmax 0 x /\ (0 < Rmax 0 x -> Rmax 0 x = x).
Proof.
  unfold Rmax. destruct (Rle_dec 0 x); split; intros; lra.
Qed.

Lemma inter_w_bounds (a b : Box R) :
  0 <= inter_w a b /\
  (0 < inter_w a b ->
   inter_w a b = Rmin (b2 a) (b2 b) - Rmax (b0 a) (b0 b) /\
   inter_w a b <= b2 a - b0 a /\ inter_w a b <= b2 b - b0 b).
Proof.
  unfold inter_w.
  pose proof (Rmin_l (b2 a) (b2 b)). pose proof (Rmin_r (b2 a) (b2 b)).
  pose proof (Rmax_l (b0 a) (b0 b)). pose proof (Rmax_r (b0 a) (b0 b)).
  destruct (Rmax_0_cases (Rmin (b2 a) (b2 b) - Rmax (b0 a) (b0 b)))
    as [Hpos Heq].
  split; [exact Hpos |]. intros Hp. rewrite (Heq Hp) in *.
  repeat split; lra.
Qed.

Lemma inter_h_bounds (a b : Box R) :
  0 <= inter_h a b /\
  (0 < inter_h a b ->
   inter_h a b = Rmin (b3 a) (b3 b) - Rmax (b1 a) (b1 b) /\
   inter_h a b <= b3 a - b1 a /\ inter_h a b <= b3 b - b1 b).
Proof.
  unfold inter_h.
  pose proof (Rmin_l (b3 a) (b3 b)). pose proof (Rmin_r (b3 a) (b3 b)).
  pose proof (Rmax_l (b1 a) (b1 b)). pose proof (Rmax_r (b1 a) (b1 b)).
  destruct (Rmax_0_cases (Rmin (b3 a) (b3 b) - Rmax (b1 a) (b1 b)))
    as [Hpos Heq].
  split; [exact Hpos |]. intros Hp. rewrite (Heq Hp) in *.
  repeat split; lra.
Qed.

(** X9: in exact arithmetic [compute_iou] is symmetric in its two boxes. *)
Theorem compute_iou_symmetric (a b : Box R) :
  compute_iou a b = compute_iou b a.
Proof.
  rewrite !compute_iou_exact.
  assert (Hw : inter_w b a = inter_w a b).
  { unfold inter_w. now rewrite (Rmin_comm (b2 b)), (Rmax_comm (b0 b)). }
  assert (Hh : inter_h b a = inter_h a b).
  { unfold inter_h. now rewrite (Rmin_comm (b3 b)), (Rmax_comm (b1 b)). }
  rewrite Hw, Hh.
  destruct (Rle_dec (inter_w a b * inter_h a b) 0); [reflexivity |].
  f_equal. ring.
Qed.

Lemma compute_iou_range (a b : Box R) :
  0 <= compute_iou a b < 1 /\
  (0 < compute_iou a b <->
   Rmax (b0 a) (b0 b) < Rmin (b2 a) (b2 b) /\
   Rmax (b1 a) (b1 b) < Rmin (b3 a) (b3 b)).
Proof.
  rewrite compute_iou_exact.
  destruct (inter_w_bounds a b) as [Hw0 Hw].
  destruct (inter_h_bounds a b) as [Hh0 Hh].
  assert (Hwr : Rmin (b2 a) (b2 b) - Rmax (b0 a) (b0 b) <= inter_w a b)
    by apply Rmax_r.
  assert (Hhr : Rmin (b3 a) (b3 b) - Rmax (b1 a) (b1 b) <= inter_h a b)
    by apply Rmax_r.
  destruct (Rle_dec (inter_w a b * inter_h a b) 0) as [Hle | Hgt].
  - split; [lra |]. split; [lra |].
    intros [Hx Hy]. exfalso.
    assert (0 < inter_w a b * inter_h a b)
      by (apply Rmult_lt_0_compat; lra).
    lra.
  - assert (Hpos : 0 < inter_w a b * inter_h a b) by lra.
    assert (Hwp : 0 < inter_w a b).
    { destruct (Rle_lt_or_eq_dec _ _ Hw0) as [Hlt | Heq]; [exact Hlt |].
      rewrite <- Heq in Hpos. lra. }
    assert (Hhp : 0 < inter_h a b).
    { destruct (Rle_lt_or_eq_dec _ _ Hh0) as [Hlt | Heq]; [exact Hlt |].
      rewrite <- Heq in Hpos. lra. }
    destruct (Hw Hwp) as (Ew & Hwa & Hwb).
    destruct (Hh Hhp) as (Eh & Hha & Hhb).
    assert (HA : inter_w a b * inter_h a b
                 <= (b2 a - b0 a) * (b3 a - b1 a))
      by (apply Rmult_le_compat; lra).
    assert (HB : inter_w a b * inter_h a b
                 <= (b2 b - b0 b) * (b3 b - b1 b))
      by (apply Rmult_le_compat; lra).
    set (i := inter_w a b * inter_h a b) in *.
    set (d := (b2 a - b0 a) * (b3 a - b1 a) + (b2 b - b0 b) * (b3 b - b1 b)
              - i + 1 / 1000000).
    assert (Hd : i < d) by (unfold d; lra).
    assert (Hq : 0 < i / d < 1).
    { split.
      - apply Rdiv_lt_0_compat; lra.
      - apply (Rmult_lt_reg_r d); [lra |].
        unfold Rdiv. rewrite Rmult_assoc, Rinv_l by lra. lra. }
    split; [lra |]. split; [intros _; lra | intros _; lra].
Qed.


Lemma nonzero_and_le (ma mb : mask) :
  let nz := fun p : Z => negb (p =? 0)%Z in
  (List.length (filter nz (map2 Z.land ma mb))
   <= List.length (filter nz ma))%nat /\
  (List.length (filter nz (map2 Z.land ma mb))
   <= List.length (filter nz mb))%nat.
Proof.
  cbv zeta. revert mb.
  induction ma as [| x ma IH]; intros [| y mb]; simpl; try (split; lia).
  specialize (IH mb). destruct IH as [IHa IHb].
  destruct (Z.eqb_spec x 0) as [-> | Hx].
  - rewrite Z.land_0_l. simpl.
    destruct (negb (y =? 0)%Z); simpl; split; lia.
  - destruct (Z.eqb_spec y 0) as [-> | Hy].
    + rewrite Z.land_0_r. simpl. split; lia.
    + simpl. destruct (negb (Z.land x y =? 0)%Z); simpl; split; lia.
Qed.

(** X11: the pixels set in [cv2.bitwise_and] of two masks are at most as
    many as the pixels set in either mask. *)
Theorem count_nonzero_and_le (ma mb : mask) :
  (count_nonzero (bitwise_and ma mb) <= count_nonzero ma)%Z /\
  (count_nonzero (bitwise_and ma mb) <= count_nonzero mb)%Z.
Proof.
  unfold count_nonzero, bitwise_and.
  destruct (nonzero_and_le ma mb) as [Ha Hb]. split; lia.
Qed.

Lemma fused_iou_exact (mask_a mask_b : option mask) (box_a box_b : Box R)
    (alpha : R) :
  fused_iou mask_a mask_b box_a box_b alpha
  = alpha * mask_iou mask_a mask_b + (1 - alpha) * compute_iou box_a box_b.
Proof.
  unfold fused_iou, mask_iou. destruct mask_a, mask_b; reflexivity.
Qed.

Lemma mask_iou_bounds (mask_a mask_b : option mask) :
  0 <= mask_iou mask_a mask_b < 1.
Proof.
  unfold mask_iou. destruct mask_a as [ma |], mask_b as [mb |]; try lra.
  cbv zeta.
  assert (Hle : (0 <= count_nonzero (bitwise_and ma mb) <= count_nonzero ma)%Z
                /\ (count_nonzero (bitwise_and ma mb) <= count_nonzero mb)%Z).
  { unfold count_nonzero, bitwise_and.
    destruct (nonzero_and_le ma mb) as [Ha Hb]. lia. }
  destruct Hle as [[H0 Ha] Hb].
  destruct (Z.eqb_spec (count_nonzero (bitwise_and ma mb)) 0) as [E | E];
    [lra |].
  set (i := count_nonzero (bitwise_and ma mb)) in *.
  set (u := (count_nonzero ma + count_nonzero mb - i)%Z).
  assert (Hi : 1 <= IZR i) by (apply IZR_le; lia).
  assert (Hu : IZR i <= IZR u) by (apply IZR_le; unfold u; lia).
  split.
  - apply Rlt_le, Rdiv_lt_0_compat; lra.
  - apply (Rmult_lt_reg_r (IZR u + 1 / 1000000)); [lra |].
    unfold Rdiv at 1. rewrite Rmult_assoc, Rinv_l by lra. lra.
Qed.

Lemma fused_iou_range (mask_a mask_b : option mask) (box_a box_b : Box R)
    (alpha : R) :
  0 <= alpha <= 1 ->
  0 <= fused_iou mask_a mask_b box_a box_b alpha < 1.
Proof.
  intros Halpha. rewrite fused_iou_exact.
  pose proof (mask_iou_bounds mask_a mask_b) as Hm.
  destruct (compute_iou_range box_a box_b) as [Hb _].
  set (m := mask_iou mask_a mask_b) in *.
  set (b := compute_iou box_a box_b) in *.
  assert (H1 : 0 <= alpha * m) by (apply Rmult_le_pos; lra).
  assert (H2 : 0 <= (1 - alpha) * b) by (apply Rmult_le_pos; lra).
  assert (H3 : (1 - alpha) * b <= (1 - alpha) * 1)
    by (apply Rmult_le_compat_l; lra).
  split; [lra |].
  destruct Halpha as [[Hpos | Hzero] _].
  - assert (H4 : alpha * m < alpha * 1) by (apply Rmult_lt_compat_l; lra).
    lra.
  - subst alpha. lra.
Qed.


Lemma len_cons_exact {A} (x : A) (xs : list A) :
  IZR (len (x :: xs)) = IZR (len xs) + 1.
Proof.
  unfold len. simpl List.length. now rewrite Nat2Z.inj_succ, succ_IZR.
Qed.

Lemma len_nonneg_exact {A} (xs : list A) : 0 <= IZR (len xs).
Proof.
  unfold len. apply IZR_le. lia.
Qed.

Lemma fold_sum_bounds (lo hi : R) (xs : list R) :
  Forall (fun x => lo <= x <= hi) xs ->
  forall acc,
    acc + IZR (len xs) * lo <= fold_left Rplus xs acc
    <= acc + IZR (len xs) * hi.
Proof.
  induction 1 as [| x xs Hx _ IH]; intros acc.
  - unfold len. simpl. lra.
  - simpl fold_left. rewrite len_cons_exact.
    specialize (IH (acc + x)). lra.
Qed.

Lemma np_mean_bounds (lo hi : R) (xs : list R) :
  xs <> [] ->
  Forall (fun x => lo <= x <= hi) xs ->
  lo <= np_mean xs <= hi.
Proof.
  intros Hne Hall. unfold np_mean, np_sum. simpl.
  pose proof (fold_sum_bounds Hall 0) as Hs.
  assert (Hn : 1 <= IZR (len xs)).
  { destruct xs as [| x xs]; [congruence |].
    rewrite len_cons_exact. pose proof (len_nonneg_exact xs). lra. }
  set (n := IZR (len xs)) in *. set (t := fold_left Rplus xs 0) in *.
  split.
  - apply (Rmult_le_reg_r n); [lra |].
    unfold Rdiv. rewrite Rmult_assoc, Rinv_l by lra. lra.
  - apply (Rmult_le_reg_r n); [lra |].
    unfold Rdiv. rewrite Rmult_assoc, Rinv_l by lra. lra.
Qed.

Lemma np_min_in {F : Type} `{PyNum F} (xs : list F) (d : F) :
  np_min xs = Some d -> In d xs.
Proof.
  destruct xs as [| x xs]; [discriminate |]. simpl. intros Hd.
  inversion Hd as [Hf]. clear Hd Hf.
  revert x. induction xs as [| y xs IH]; intros x; simpl; [now left |].
  destruct (IH (np_minimum x y)) as [E | Hin]; [| now right; right].
  rewrite <- E. unfold np_minimum.
  destruct (negb _); [now left |]. destruct (flt x y); [now left | right; now left].
Qed.

Lemma avg_contact_bounds (img_diag : R) (glove_mask : option mask)
    (glove_box : option (Box R)) (obj_masks : list mask)
    (obj_boxes : list (Box R)) (o d : R) :
  0 <= img_diag ->
  avg_contact img_diag glove_mask glove_box obj_masks obj_boxes = Some (o, d) ->
  0 <= o <= 1 /\ 0 <= d.
Proof.
  intros Himg. unfold avg_contact.
  destruct glove_mask as [gm |], glove_box as [gb |], obj_masks as [| m ms];
    try (intros E; inversion E; simpl; lra).
  destruct (bbox_center gb) as [g_cx g_cy].
  set (targets := combine (m :: ms) obj_boxes).
  destruct (np_min _) as [d' |] eqn:Emin; [| discriminate].
  cbv beta iota delta [obind]. intros E. inversion E. subst o d'. clear E.
  assert (Hne : targets <> []).
  { intros Hnil. rewrite Hnil in Emin. discriminate. }
  split.
  - apply np_mean_bounds.
    + destruct targets; [congruence | discriminate].
    + apply Forall_forall. intros x Hx. apply in_map_iff in Hx.
      destruct Hx as ([m' b'] & <- & _).
      pose proof (@fused_iou_range (Some gm) (Some m') gb b'
                    (@alpha_default R exact)) as Hb.
      assert (Ha : 0 <= @alpha_default R exact <= 1).
      { unfold alpha_default. rewrite dec_exact.
        change (10 ^ Z.of_nat 1)%Z with 10%Z. lra. }
      specialize (Hb Ha).
      change (0 <= fused_iou (Some gm) (Some m') gb b' alpha_default <= 1).
      lra.
  - apply np_min_in in Emin. apply in_map_iff in Emin.
    destruct Emin as ([m' b'] & <- & _).
    destruct (bbox_center b') as [bx by_].
    change (0 <= sqrt ((g_cx - bx) * (g_cx - bx) + (g_cy - by_) * (g_cy - by_))
                 * / (img_diag + 1 / 1000000)).
    apply Rmult_le_pos; [apply sqrt_pos |].
    apply Rlt_le, Rinv_0_lt_compat. lra.
Qed.

(** X13: in exact arithmetic every contact score of a frame is defined,
    with an overlap in [0, 1] and a distance that is not negative. *)
Theorem contact_score_bounds (names : nat -> string) (frame : Frame R)
    (raw_masks : list (list R)) (cname : string) :
  exists o d,
    contact_score (img_diag_of frame)
      (detections names (detect frame) raw_masks) cname = Some (o, d) /\
    0 <= o <= 1 /\ 0 <= d.
Proof.
  destruct (contact_score_total (img_diag_of frame)
              (detections names (detect frame) raw_masks) cname)
    as (o & d & Hs).
  exists o, d. split; [exact Hs |].
  unfold contact_score in Hs.
  destruct (merge_gloves _ _) as [gm gb].
  apply (avg_contact_bounds _ _ _ _ (sqrt_pos _) Hs).
Qed.

Lemma exact_round_bounds (x : R) (ndigits : nat) :
  0 <= x <= 1 -> 0 <= Exact.round x ndigits <= 1.
Proof.
  intros Hx. unfold Exact.round.
  assert (Hp : 10 ^ ndigits = IZR (10 ^ Z.of_nat ndigits)) by apply pow_IZR.
  assert (Hp1 : 1 <= 10 ^ ndigits) by (apply pow_R1_Rle; lra).
  set (p := 10 ^ ndigits) in *. set (y := x * p).
  assert (Hy : 0 <= y <= p).
  { unfold y. split; [apply Rmult_le_pos; lra |].
    rewrite <- (Rmult_1_l p) at 2. apply Rmult_le_compat_r; lra. }
  destruct (base_Int_part y) as [Hfl1 Hfl2].
  assert (Hfr : frac_part y = y - IZR (Int_part y)) by reflexivity.
  set (fl := Int_part y) in *. set (fr := frac_part y) in *.
  assert (Hfl0 : (0 <= fl)%Z).
  { assert (IZR (-1) < IZR fl) by (simpl; lra).
    apply lt_IZR in H. lia. }
  assert (Hbound : forall k : Z,
             (k = fl \/ (k = (fl + 1)%Z /\ 1 / 2 <= fr)) ->
             0 <= IZR k / p <= 1).
  { intros k Hk.
    assert (Hk0 : 0 <= IZR k <= p).
    { destruct Hk as [-> | [-> Hhalf]].
      - split; [apply IZR_le; lia | lra].
      - split; [apply IZR_le; lia |].
        assert (Hlt : IZR fl < IZR (10 ^ Z.of_nat ndigits))
          by (rewrite <- Hp; lra).
        apply lt_IZR in Hlt. rewrite Hp. apply IZR_le. lia. }
    split.
    - apply Rmult_le_pos; [lra |]. apply Rlt_le, Rinv_0_lt_compat. lra.
    - apply (Rmult_le_reg_r p); [lra |].
      unfold Rdiv. rewrite Rmult_assoc, Rinv_l by lra. lra. }
  apply Hbound.
  destruct (Rlt_dec fr (1 / 2)) as [Hlt | Hge]; [now left |].
  destruct (Rlt_dec (1 / 2) fr) as [Hgt | Hle].
  - right. split; [reflexivity | lra].
  - destruct (Z.even fl); [now left | right; split; [reflexivity | lra]].
Qed.

Lemma np_maximum_on_reals (a b : R) :
  np_maximum a b = if Rlt_dec b a then a else b.
Proof.
  unfold np_maximum. simpl. unfold Exact.leb, Exact.ltb.
  destruct (Rle_dec a a); [| exfalso; lra].
  simpl. destruct (Rlt_dec b a); reflexivity.
Qed.

Lemma np_minimum_on_reals (a b : R) :
  np_minimum a b = if Rlt_dec a b then a else b.
Proof.
  unfold np_minimum. simpl. unfold Exact.leb, Exact.ltb.
  destruct (Rle_dec a a); [| exfalso; lra].
  simpl. destruct (Rlt_dec a b); reflexivity.
Qed.

Lemma np_clip_exact_bounds (x : R) : 0 <= np_clip x (IZR 0) (IZR 1) <= 1.
Proof.
  unfold np_clip. rewrite np_maximum_on_reals.
  destruct (Rlt_dec 0 x); rewrite np_minimum_on_reals;
    match goal with
    | |- context [Rlt_dec ?a ?b] => destruct (Rlt_dec a b)
    end; lra.
Qed.

Lemma robust_confidence_bounds (confs : list R) :
  0 <= robust_confidence confs <= 1.
Proof.
  unfold robust_confidence. apply exact_round_bounds, np_clip_exact_bounds.
Qed.

(** X14: in exact arithmetic the confidence that [infer_frames] returns
    lies in [0, 1], for every list of frames. *)
Theorem window_confidence_bounds (names : nat -> string) (frame_id : nat)
    (frame_list : list (Frame R)) :
  exists r,
    fst (infer_frames names frame_id frame_list) = Some r /\
    0 <= confidence r <= 1.
Proof.
  destruct frame_list as [| frame frame_list].
  - eexists. split; [reflexivity |]. simpl. lra.
  - unfold infer_frames.
    destruct (frames_loop_spec names (frame :: frame_list) frame_id [] [])
      as (rs & _ & ->).
    simpl fst. cbv beta iota delta [obind]. simpl app.
    destruct (map fst (surviving (map activity rs) (map confidence rs)))
      as [| a l] eqn:El.
    + unfold aggregate. fold (surviving (map activity rs) (map confidence rs)).
      destruct (surviving (map activity rs) (map confidence rs));
        [| discriminate].
      eexists. split; [reflexivity |]. simpl. lra.
    + assert (Hne : map fst (surviving (map activity rs) (map confidence rs))
                    <> []) by (rewrite El; discriminate).
      destruct (aggregate_spec (map activity rs) (map confidence rs) Hne)
        as (m & Hagg & _).
      eexists. split; [exact Hagg |]. simpl.
      apply robust_confidence_bounds.
Qed.

Lemma zip4_conf_in {A B C} (la : list A) (lb : list B) (lc : list C)
    (ld : list R) (d : A * B * C * R) :
  In d (zip4 la lb lc ld) -> In (snd d) ld.
Proof.
  revert lb lc ld.
  induction la as [| a la IH]; intros [| b lb] [| c lc] [| x ld]; simpl;
    try tauto.
  intros [<- | Hin]; [now left | right; eauto].
Qed.

Lemma category_confidence_bounds (names : nat -> string) (res : Results R)
    (raw_masks : list (list R)) (cname : string) :
  Forall (fun c => 0 <= c <= 1) (boxes_conf res) ->
  0 <= category_confidence (detections names res raw_masks) cname <= 1.
Proof.
  intros Hall. unfold category_confidence.
  destruct (class_confs (detections names res raw_masks) cname)
    as [| c confs] eqn:E; [simpl; lra |].
  apply np_mean_bounds; [discriminate |].
  rewrite <- E. apply Forall_forall. intros x Hx.
  unfold class_confs in Hx. apply in_map_iff in Hx.
  destruct Hx as (d & <- & Hd). unfold of_class in Hd.
  apply filter_In in Hd. destruct Hd as [Hd _].
  unfold detections in Hd. apply zip4_conf_in in Hd.
  rewrite Forall_forall in Hall. now apply Hall.
Qed.

(** X15: in exact arithmetic, when the detector's confidences lie in
    [0, 1], so does the confidence of the frame. *)
Theorem frame_confidence_bounds (names : nat -> string) (frame : Frame R) :
  Forall (fun c => 0 <= c <= 1) (boxes_conf (detect frame)) ->
  exists r,
    _process_single_frame names frame = Some r /\
    0 <= confidence r <= 1.
Proof.
  intros Hall.
  destruct (masks (detect frame)) as [raw |] eqn:Hm.
  - destruct (process_frame_spec names frame Hm)
      as (? & ? & ? & ? & ? & ? & ? & ? & _ & _ & _ & _ & Hres).
    eexists. split; [exact Hres |]. simpl.
    apply exact_round_bounds.
    pose proof (fun c => @category_confidence_bounds names (detect frame) raw c Hall)
      as Hc.
    unfold activity_confidence.
    repeat match goal with
           | |- context [if ?b then _ else _] => destruct b
           end;
      try (simpl; lra);
      (apply np_mean_bounds; [discriminate |]);
      repeat (constructor; [apply Hc |]); constructor.
  - unfold _process_single_frame. rewrite Hm.
    eexists. split; [reflexivity |]. simpl. lra.
Qed.

End ExactBounds.

(** ** The synonym table *)

Section Canonical.

Local Open Scope string_scope.

Lemma dict_get_in_values {V} (k : string) (v : V) (d : Dict.t V) :
  Dict.get k d = Some v -> In v (map snd d).
Proof.
  induction d as [| [k' v'] d IH]; simpl; [discriminate |].
  destruct (String.eqb k k'); intros Hg.
  - left. congruence.
  - right. auto.
Qed.

Lemma canonical_cases (cname : string) :
  (Dict.get cname raw2canon = None /\ canonical cname = cname) \/
  (exists canon, Dict.get cname raw2canon = Some canon /\
                 canonical cname = canon /\ In canon categories).
Proof.
  unfold canonical, Dict.get_or.
  destruct (Dict.get cname raw2canon) as [canon |] eqn:E; [right | now left].
  exists canon. repeat split.
  apply dict_get_in_values in E.
  assert (Hvals : forallb (fun v => existsb (String.eqb v) categories)
                    (map snd raw2canon) = true)
    by (vm_compute; reflexivity).
  rewrite forallb_forall in Hvals. apply Hvals in E.
  apply existsb_exists in E. destruct E as (c & Hc & Heq).
  apply String.eqb_eq in Heq. now subst.
Qed.

(** X16: canonicalization is idempotent, and a name that it changes lands
    in one of the five categories. *)
Theorem canonical_idempotent (cname : string) :
  canonical (canonical cname) = canonical cname /\
  (canonical cname = cname \/ In (canonical cname) categories).
Proof.
  destruct (canonical_cases cname) as [[_ E] | (canon & _ & E & Hin)].
  - rewrite !E. split; [reflexivity | now left].
  - rewrite E. split; [| now right].
    assert (Hfix : forallb (fun c => String.eqb (canonical c) c) categories
                   = true) by (vm_compute; reflexivity).
    rewrite forallb_forall in Hfix. apply String.eqb_eq. now apply Hfix.
Qed.

(** X17: the synonym lists do not collide: every synonym of
    [NAME_SYNONYMS], lower-cased as the dict comprehension does, resolves
    to the category that lists it, and each category name to itself. *)
Theorem synonyms_resolve_to_their_category :
  forall canon syns s,
    In (canon, syns) NAME_SYNONYMS -> In s syns ->
    canonical (lower s) = canon /\ canonical canon = canon.
Proof.
  intros canon syns s Hin Hs.
  assert (Hall : forallb
                   (fun '(canon, syns) =>
                      forallb (fun s => String.eqb (canonical (lower s)) canon
                                        && String.eqb (canonical canon) canon)
                        syns)
                   NAME_SYNONYMS = true) by (vm_compute; reflexivity).
  rewrite forallb_forall in Hall. specialize (Hall _ Hin). simpl in Hall.
  rewrite forallb_forall in Hall. specialize (Hall _ Hs).
  apply andb_true_iff in Hall. destruct Hall as [H1 H2].
  split; now apply String.eqb_eq.
Qed.

End Canonical.

(** ** [main] and [format_model_output] of ml_inference.py *)

Section InferenceRules.

Context {F : Type} `{PyNum F}.

Variable names : nat -> string.
Variable path_str : string -> string.
Variable load : string -> option (Frame F).

Local Open Scope string_scope.
Local Open Scope py_scope.

Lemma omap_length {A B} (f : A -> option B) (l : list A) (ys : list B) :
  omap f l = Some ys -> List.length ys = List.length l.
Proof.
  revert ys. induction l as [| x l IH]; intros ys; simpl.
  - intros E. inversion E. reflexivity.
  - destruct (f x) as [y |]; [| discriminate]. simpl.
    destruct (omap f l) as [ys' |]; [| discriminate]. simpl.
    intros E. inversion E. simpl. f_equal. now apply IH.
Qed.

(** X18: [main] exits with status 0 exactly when some argument is left by
    [_to_frame_list] and every frame can be read; it then prints a window
    result labeled 'No detection' or with an activity.  Otherwise it
    prints an error and exits with status 1, which is what happens with no
    argument.  The sentinels 'No frames' of [infer_frames] and 'No image
    found!' of [model_inference] are never printed. *)
Theorem main_outcome (argv : list string) :
  let out := main names path_str load argv in
  let frames := _to_frame_list path_str (ManyPaths argv) in
  (snd out = 0%Z <->
   frames <> [] /\ exists read, omap load frames = Some read) /\
  (snd out = 0%Z ->
   exists r,
     fst out = PrintedResponse (Answer r) /\
     In (activity r) ["No detection"; "Injection"; "Tourniquet"; "Disinfection"]) /\
  (snd out <> 0%Z -> snd out = 1%Z /\ exists msg, fst out = PrintedError msg) /\
  (argv = [] ->
   out = (PrintedError (Some "No valid frame paths provided"), 1%Z)).
Proof.
  intros out frames. subst out. unfold main. fold frames.
  destruct frames as [| p ps] eqn:Ef.
  - simpl. split; [| split; [| split]].
    + split; [discriminate | intros [Hne _]; congruence].
    + discriminate.
    + intros _. split; [reflexivity | eauto].
    + reflexivity.
  - assert (Hargv : argv <> []).
    { intros ->. subst frames. discriminate. }
    destruct (omap load (p :: ps)) as [read |] eqn:Er.
    + assert (Hread : read <> []).
      { apply omap_length in Er. destruct read; discriminate. }
      destruct (window_nonempty_spec names 0 Hread) as (r & _ & Hans & Hran).
      rewrite Hans. simpl. split; [| split; [| split]].
      * split; [intros _ | reflexivity].
        split; [discriminate | eauto].
      * intros _. eauto.
      * intros Hn. congruence.
      * intros E. congruence.
    + simpl. split; [| split; [| split]].
      * split; [discriminate | intros [_ [read Hr]]; discriminate].
      * discriminate.
      * intros _. split; [reflexivity | eauto].
      * intros E. congruence.
Qed.

(** X19: [format_model_output] answers with an error dict exactly when
    it is given no result ('Empty result') or results none of which
    carries probabilities ('No valid probabilities returned by model!'). *)
Theorem format_model_output_errors (results : list (ClsResult F))
    (frame_paths : list string) :
  (results = [] ->
   format_model_output results frame_paths
   = Some (FormatError "Empty result")) /\
  (results <> [] ->
   (forall result, In result results -> probs result = None) ->
   format_model_output results frame_paths
   = Some (FormatError "No valid probabilities returned by model!")) /\
  (forall msg,
      format_model_output results frame_paths = Some (FormatError msg) ->
      (results = [] /\ msg = "Empty result") \/
      (results <> [] /\
       (forall result, In result results -> probs result = None) /\
       msg = "No valid probabilities returned by model!")).
Proof.
  assert (Hflat : forall rs : list (ClsResult F),
             flat_map (fun result => match probs result with
                                     | None => []
                                     | Some p => [p]
                                     end) rs = [] <->
             forall result, In result rs -> probs result = None).
  { induction rs as [| r rs IH]; simpl; [tauto |].
    destruct (probs r) as [p |] eqn:Ep; simpl.
    - split; [discriminate |]. intros Hall.
      specialize (Hall r (or_introl eq_refl)). congruence.
    - rewrite IH. split.
      + intros Hall result [<- | Hin]; auto.
      + intros Hall result Hin. apply Hall. now right. }
  split; [intros ->; reflexivity |]. split.
  - intros Hne Hall. destruct results as [| first rest]; [congruence |].
    unfold format_model_output. apply Hflat in Hall. now rewrite Hall.
  - intros msg. destruct results as [| first rest].
    + simpl. intros E. inversion E. now left.
    + unfold format_model_output.
      destruct (flat_map _ (first :: rest)) as [| row rows] eqn:Eflat.
      * intros E. inversion E. right. split; [discriminate |].
        split; [now apply Hflat | reflexivity].
      * destruct (np_mean_axis0 (row :: rows)); [| discriminate]. simpl.
        destruct (class_probs_of _ _) as [d |]; [| discriminate]. simpl.
        destruct (max_key d) as [k |]; [| discriminate]. simpl.
        destruct (Dict.get k d); discriminate.
Qed.

End InferenceRules.

Section TopClass.

Context {F : Type} {N : PyNum F} {E : ExactArith N}.

Local Open Scope string_scope.
Local Open Scope py_scope.

Lemma dict_set_keys_nodup {V} (k : string) (v : V) (d : Dict.t V) :
  NoDup (Dict.keys d) -> NoDup (Dict.keys (Dict.set k v d)).
Proof.
  intros Hnd. destruct (Dict.get k d) as [v0 |] eqn:Eg.
  - now rewrite (dict_keys_set_present k v d Eg).
  - rewrite (dict_keys_set_absent k v d Eg).
    apply NoDup_app; [exact Hnd | repeat constructor; auto |].
    intros a Ha [<- | []]. apply dict_get_in_keys in Ha. congruence.
Qed.

Lemma class_probs_nodup (class_names : nat -> option string)
    (avg_prob : list F) (d : Dict.t F) :
  class_probs_of class_names avg_prob = Some d -> NoDup (Dict.keys d).
Proof.
  unfold class_probs_of.
  generalize (combine (seq 0 (List.length avg_prob)) avg_prob).
  assert (Hgen : forall (l : list (nat * F)) (d0 : Dict.t F),
             NoDup (Dict.keys d0) ->
             ofold (fun d '(i, prob) =>
                      name <- class_names i ;; Some (Dict.set name prob d))
               l d0 = Some d ->
             NoDup (Dict.keys d)).
  { induction l as [| [i prob] l IH]; intros d0 Hnd; simpl.
    - intros Heq. inversion Heq. now subst.
    - destruct (class_names i) as [name |]; [| discriminate]. simpl.
      apply IH. now apply dict_set_keys_nodup. }
  intros l. apply Hgen. constructor.
Qed.

Lemma max_by_value_spec (items : list (string * F)) :
  forall best,
    let r := max_by_value best items in
    In r (best :: items) /\
    forall item, In item (best :: items) -> (snd r <? snd item) = false.
Proof.
  induction items as [| x items IH]; intros best; simpl.
  - split; [now left |]. intros item [<- | []].
    destruct (snd best <? snd best) eqn:Hlt; [| reflexivity].
    now rewrite (flt_asym _ _ Hlt) in Hlt.
  - destruct (IH (if snd best <? snd x then x else best)) as [Hin Hmax].
    set (r := max_by_value (if snd best <? snd x then x else best) items) in *.
    destruct (snd best <? snd x) eqn:Hbx.
    + split; [destruct Hin as [<- | Hin]; auto |].
      intros item [<- | [<- | Hin']].
      * destruct (snd r <? snd best) eqn:Hrb; [| reflexivity].
        rewrite <- (Hmax x (or_introl eq_refl)).
        symmetry. exact (flt_trans _ _ _ Hrb Hbx).
      * apply Hmax. now left.
      * apply Hmax. now right.
    + split; [destruct Hin as [<- | Hin]; auto |].
      intros item [<- | [<- | Hin']].
      * apply Hmax. now left.
      * apply (flt_negtrans _ (snd best)); [apply Hmax; now left | exact Hbx].
      * apply Hmax. now right.
Qed.

(** X20: in exact arithmetic, when [format_model_output] succeeds its top
    class is an entry of the class probabilities whose value is the
    reported confidence, no class has a larger probability, and the frame
    paths are handed back unchanged. *)
Theorem format_top_class_is_argmax (results : list (ClsResult F))
    (frame_paths : list string) (out : Formatted F) :
  format_model_output results frame_paths = Some (FormatOk out) ->
  Dict.get (top_class out) (all_class_probabilities out)
    = Some (top_confidence out) /\
  (forall cls p,
      Dict.get cls (all_class_probabilities out) = Some p ->
      (top_confidence out <? p) = false) /\
  out_frame_paths out = frame_paths.
Proof.
  unfold format_model_output.
  destruct results as [| first rest]; [discriminate |].
  destruct (flat_map _ (first :: rest)) as [| row rows]; [discriminate |].
  destruct (np_mean_axis0 (row :: rows)) as [avg |]; [| discriminate].
  cbv beta iota delta [obind].
  destruct (class_probs_of (cls_names first) avg) as [d |] eqn:Ed;
    [| discriminate].
  destruct (max_key d) as [top |] eqn:Et; [| discriminate].
  destruct (Dict.get top d) as [conf |] eqn:Ec; [| discriminate].
  intros Heq. inversion Heq. subst out. simpl. clear Heq.
  split; [exact Ec |]. split; [| reflexivity].
  intros cls p Hp.
  pose proof (class_probs_nodup _ _ Ed) as Hnd.
  assert (Hkey : exists item items,
             d = (item :: items)%list /\
             top = fst (max_by_value item items)).
  { unfold max_key in Et. destruct d as [| item items]; [discriminate |].
    exists item, items. split; [reflexivity | congruence]. }
  destruct Hkey as (item & items & Hd & Htop).
  destruct (max_by_value_spec items item) as [Hin Hmax].
  rewrite <- Hd in Hin, Hmax.
  assert (Hconf : conf = snd (max_by_value item items)).
  { destruct (max_by_value item items) as [k v] eqn:Em. simpl in *.
    subst top. rewrite (@dict_get_of_in F k v d Hnd Hin) in Ec. congruence. }
  rewrite Hconf. apply (Hmax (cls, p)). now apply dict_in_of_get.
Qed.

End TopClass.

(** ** The fused glove region *)

Section RegionFuser.

Lemma map2_comm {A B} (f : A -> A -> B) (l l' : list A) :
  (forall a b, f a b = f b a) -> map2 f l l' = map2 f l' l.
Proof.
  intros Hf. revert l'.
  induction l as [| a l IH]; intros [| b l']; simpl; try reflexivity.
  now rewrite Hf, IH.
Qed.

Lemma binarize_binary {F} {N : PyNum F} (m : list F) :
  binary_mask (binarize m).
Proof.
  unfold binary_mask, binarize. apply Forall_forall. intros p Hp.
  apply in_map_iff in Hp. destruct Hp as (x & <- & _).
  destruct (flt _ _); auto.
Qed.

Lemma bitwise_or_binary (ma mb : mask) :
  binary_mask ma -> binary_mask mb -> binary_mask (bitwise_or ma mb).
Proof.
  unfold binary_mask, bitwise_or. intros Ha. revert mb.
  induction Ha as [| x ma Hx Ha IH]; intros mb Hb; simpl; [constructor |].
  destruct Hb as [| y mb Hy Hb]; constructor.
  - destruct Hx as [-> | ->], Hy as [-> | ->]; auto.
  - now apply IH.
Qed.

(** X21: in exact arithmetic the fused glove box encloses the boxes of the
    first two gloves, and the fused region does not depend on which of the
    two gloves the detector lists first. *)
Theorem fused_gloves_enclose_both (g0 g1 : mask) (gs : list mask)
    (gb0 gb1 : Box R) (gbs : list (Box R)) :
  exists m b,
    merge_gloves (g0 :: g1 :: gs) (gb0 :: gb1 :: gbs) = (Some m, Some b) /\
    merge_gloves (g1 :: g0 :: gs) (gb1 :: gb0 :: gbs) = (Some m, Some b) /\
    (b0 b <= b0 gb0 /\ b1 b <= b1 gb0 /\ b2 gb0 <= b2 b /\ b3 gb0 <= b3 b)%R /\
    (b0 b <= b0 gb1 /\ b1 b <= b1 gb1 /\ b2 gb1 <= b2 b /\ b3 gb1 <= b3 b)%R.
Proof.
  eexists. eexists. split; [reflexivity |]. split.
  - unfold merge_gloves, bitwise_or.
    rewrite (map2_comm Z.lor g1 g0 Z.lor_comm).
    rewrite !py_min_exact, !py_max_exact.
    now rewrite (Rmin_comm (b0 gb1)), (Rmin_comm (b1 gb1)),
      (Rmax_comm (b2 gb1)), (Rmax_comm (b3 gb1)).
  - cbn [b0 b1 b2 b3]. rewrite !py_min_exact, !py_max_exact.
    repeat split;
      auto using Rmin_l, Rmin_r, Rmax_l, Rmax_r.
Qed.

(** X22: for two masks of one shape whose pixels are 0 or 255, the union
    area that [fused_iou] computes (the pixels of the one plus the pixels of
    the other minus the pixels of [cv2.bitwise_and]) is the number of pixels
    set in [cv2.bitwise_or] of the two, and the union is again such a
    mask. *)
Theorem union_area_counts_the_union (ma mb : mask) :
  binary_mask ma -> binary_mask mb -> List.length ma = List.length mb ->
  (count_nonzero ma + count_nonzero mb - count_nonzero (bitwise_and ma mb)
   = count_nonzero (bitwise_or ma mb))%Z /\
  binary_mask (bitwise_or ma mb).
Proof.
  intros Ha Hb Hlen. split; [| now apply bitwise_or_binary].
  unfold count_nonzero, bitwise_and, bitwise_or.
  set (nz := fun p : Z => negb (p =? 0)%Z).
  enough (Hnat : (List.length (filter nz ma) + List.length (filter nz mb)
                  = List.length (filter nz (map2 Z.land ma mb))
                    + List.length (filter nz (map2 Z.lor ma mb)))%nat) by lia.
  revert mb Hb Hlen.
  induction Ha as [| x ma Hx Ha IH]; intros mb Hb Hlen.
  - destruct mb; [reflexivity | discriminate].
  - destruct Hb as [| y mb Hy Hb]; [discriminate |].
    injection Hlen as Hlen. specialize (IH mb Hb Hlen).
    destruct Hx as [-> | ->], Hy as [-> | ->]; cbn - [filter map2] in *;
      simpl; lia.
Qed.

End RegionFuser.

Lemma union_area_counts_the_union_witness :
  binary_mask [255; 0; 255; 0]%Z /\ binary_mask [255; 255; 0; 0]%Z /\
  (count_nonzero [255; 0; 255; 0] + count_nonzero [255; 255; 0; 0]
   - count_nonzero (bitwise_and [255; 0; 255; 0] [255; 255; 0; 0])
   = count_nonzero (bitwise_or [255; 0; 255; 0] [255; 255; 0; 0]))%Z.
Proof.
  assert (Ha : binary_mask [255; 0; 255; 0]%Z)
    by (repeat constructor; auto).
  assert (Hb : binary_mask [255; 255; 0; 0]%Z)
    by (repeat constructor; auto).
  split; [exact Ha |]. split; [exact Hb |].
  exact (proj1 (union_area_counts_the_union Ha Hb eq_refl)).
Defined.

(** ** The contact distance *)

Section ContactDistance.

Local Open Scope R_scope.

Lemma zip4_box_in {A B D} (la : list A) (lb : list B) (lc : list (Box R))
    (ld : list D) (d : A * B * Box R * D) :
  In d (zip4 la lb lc ld) -> In (snd (fst d)) lc.
Proof.
  revert lb lc ld.
  induction la as [| a la IH]; intros [| b lb] [| c lc] [| x ld]; simpl;
    try tauto.
  intros [<- | Hin]; [now left | right; eauto].
Qed.

Lemma class_boxes_inside (names : nat -> string) (res : Results R)
    (raw_masks : list (list R)) (W H : Z) (cname : string) :
  Forall (inside_image W H) (boxes_xyxy res) ->
  Forall (inside_image W H)
    (class_boxes (detections names res raw_masks) cname).
Proof.
  intros Hall. apply Forall_forall. intros b Hb.
  unfold class_boxes in Hb. apply in_map_iff in Hb.
  destruct Hb as (d & <- & Hd). unfold of_class in Hd.
  apply filter_In in Hd. destruct Hd as [Hd _].
  unfold detections in Hd. apply zip4_box_in in Hd.
  rewrite Forall_forall in Hall. now apply Hall.
Qed.

Lemma merge_gloves_inside (W H : Z) (GLOVES : list mask)
    (GBOXES : list (Box R)) (gb : Box R) :
  Forall (inside_image W H) GBOXES ->
  snd (merge_gloves GLOVES GBOXES) = Some gb -> inside_image W H gb.
Proof.
  intros Hall. unfold merge_gloves.
  destruct GLOVES as [| g0 [| g1 gs]]; try discriminate.
  destruct GBOXES as [| gb0 [| gb1 gbs]]; try discriminate.
  cbn [snd]. intros E. inversion E. subst gb. clear E.
  inversion Hall as [| x0 l0 Hin0 Hall' E0]. subst x0 l0.
  inversion Hall' as [| x1 l1 Hin1 _ E1]. subst x1 l1. unfold inside_image in *. cbn [b0 b1 b2 b3].
  rewrite !py_min_exact, !py_max_exact.
  unfold Rmin, Rmax.
  repeat match goal with |- context [Rle_dec ?a ?b] =>
    destruct (Rle_dec a b) end; lra.
Qed.

Lemma distance_in_image (w h gx gy bx by_ : R) :
  0 <= gx <= w -> 0 <= bx <= w -> 0 <= gy <= h -> 0 <= by_ <= h ->
  sqrt ((gx - bx) * (gx - bx) + (gy - by_) * (gy - by_))
  / (sqrt (w * w + h * h) + 1 / 1000000) <= 1.
Proof.
  intros Hgx Hbx Hgy Hby.
  assert (Hsq : (gx - bx) * (gx - bx) + (gy - by_) * (gy - by_)
                <= w * w + h * h) by nra.
  pose proof (sqrt_le_1_alt _ _ Hsq) as Hle.
  pose proof (sqrt_pos (w * w + h * h)) as Hpos.
  set (S := sqrt ((gx - bx) * (gx - bx) + (gy - by_) * (gy - by_))) in *.
  set (D := sqrt (w * w + h * h)) in *.
  apply (Rmult_le_reg_r (D + 1 / 1000000)); [lra |].
  unfold Rdiv at 1. rewrite Rmult_assoc, Rinv_l by lra. lra.
Qed.

Lemma avg_contact_distance (W H : Z) (glove_mask : option mask)
    (glove_box : option (Box R)) (obj_masks : list mask)
    (obj_boxes : list (Box R)) (o d : R) :
  (forall gb, glove_box = Some gb -> inside_image W H gb) ->
  Forall (inside_image W H) obj_boxes ->
  avg_contact (sqrt (IZR (W ^ 2 + H ^ 2))) glove_mask glove_box
    obj_masks obj_boxes = Some (o, d) ->
  d <= 1.
Proof.
  intros Hgb Hall. unfold avg_contact.
  destruct glove_mask as [gm |], glove_box as [gb |], obj_masks as [| m ms];
    try (intros E; inversion E; simpl; lra).
  specialize (Hgb gb eq_refl).
  destruct (bbox_center gb) as [g_cx g_cy] eqn:Eg.
  set (targets := combine (m :: ms) obj_boxes).
  destruct (np_min _) as [d' |] eqn:Emin; [| discriminate].
  cbv beta iota delta [obind]. intros E. inversion E. subst o d'. clear E.
  apply np_min_in in Emin. apply in_map_iff in Emin.
  destruct Emin as ([m' b'] & <- & Hin).
  apply in_combine_r in Hin. rewrite Forall_forall in Hall.
  specialize (Hall b' Hin).
  destruct (bbox_center b') as [bx by_] eqn:Eb.
  unfold bbox_center in Eg, Eb. rewrite dec_exact in Eg, Eb.
  change (10 ^ Z.of_nat 1)%Z with 10%Z in Eg, Eb.
  inversion Eg. inversion Eb. clear Eg Eb.
  unfold inside_image in Hgb, Hall.
  replace (IZR (W ^ 2 + H ^ 2)) with (IZR W * IZR W + IZR H * IZR H)
    by (rewrite !Z.pow_2_r, plus_IZR, !mult_IZR; reflexivity).
  change (@dec R exact 1 6) with (1 / 1000000).
  apply distance_in_image; subst; simpl; lra.
Qed.

(** X23: in exact arithmetic, when the detector's boxes lie inside the
    image, no contact distance exceeds 1.0, the distance that stands for
    'no contact'. *)
Theorem contact_distance_at_most_one (names : nat -> string)
    (frame : Frame R) (raw_masks : list (list R)) (cname : string) :
  Forall (inside_image (shape_W frame) (shape_H frame))
    (boxes_xyxy (detect frame)) ->
  exists o d,
    contact_score (img_diag_of frame)
      (detections names (detect frame) raw_masks) cname = Some (o, d) /\
    d <= 1.
Proof.
  intros Hall.
  destruct (contact_score_total (img_diag_of frame)
              (detections names (detect frame) raw_masks) cname)
    as (o & d & Hs).
  exists o, d. split; [exact Hs |].
  unfold contact_score in Hs.
  pose proof (@merge_gloves_inside (shape_W frame) (shape_H frame)
                (class_masks (detections names (detect frame) raw_masks)
                   "gloves")
                (class_boxes (detections names (detect frame) raw_masks)
                   "gloves")) as Hg.
  destruct (merge_gloves _ _) as [gm gb].
  apply (@avg_contact_distance (shape_W frame) (shape_H frame) gm gb
           (class_masks (detections names (detect frame) raw_masks) cname)
           (class_boxes (detections names (detect frame) raw_masks) cname)
           o d).
  - intros gb' ->. apply Hg; [| reflexivity].
    now apply class_boxes_inside.
  - now apply class_boxes_inside.
  - exact Hs.
Qed.

End ContactDistance.

(** ** The properties above, at concrete inputs *)

Local Open Scope string_scope.

Lemma frame_label_characterised_witness :
  masks (detect Examples.both_objects) = Some Examples.both_objects_masks /\
  exists r,
    _process_single_frame Examples.names Examples.both_objects = Some r /\
    In (activity r)
       ["Injection"; "Tourniquet"; "Disinfection"; "No clear activity"].
Proof.
  split; [reflexivity |].
  destruct (@frame_label_characterised float binary64 Examples.names
              Examples.both_objects Examples.both_objects_masks eq_refl)
    as (r & Hr & Hin & _).
  exists r. split; assumption.
Defined.

Lemma no_arm_no_activity_witness :
  masks (detect MoreExamples.gloves_only) = Some Examples.three_gloves_masks /\
  of_class (detections Examples.names (detect MoreExamples.gloves_only)
              Examples.three_gloves_masks) "training arm" = [] /\
  _process_single_frame Examples.names MoreExamples.gloves_only =
  Some {| activity := "No clear activity"; confidence := of_Z 0 |}.
Proof.
  split; [reflexivity |]. split; [vm_compute; reflexivity |].
  apply (@no_arm_no_activity float binary64 Examples.names
           MoreExamples.gloves_only Examples.three_gloves_masks eq_refl).
  vm_compute. reflexivity.
Defined.

Lemma syringe_in_view_witness :
  masks (detect Examples.one_glove) = Some Examples.one_glove_masks /\
  of_class Examples.one_glove_dets "syringe" <> [] /\
  exists r,
    _process_single_frame Examples.names Examples.one_glove = Some r /\
    (activity r = "Injection" \/
     r = {| activity := "No clear activity"; confidence := of_Z 0 |}).
Proof.
  assert (Hsyr : of_class Examples.one_glove_dets "syringe" <> [])
    by (vm_compute; discriminate).
  split; [reflexivity |]. split; [exact Hsyr |].
  exact (@syringe_in_view_injection_or_nothing float binary64 Examples.names
           Examples.one_glove Examples.one_glove_masks eq_refl Hsyr).
Defined.

Lemma tourniquet_needs_a_rubber_band_witness :
  touching (Some (@of_Z float binary64 0, @of_Z float binary64 1)) = false /\
  masks (detect MoreExamples.rubber_band)
  = Some MoreExamples.rubber_band_masks /\
  exists r,
    _process_single_frame Examples.names MoreExamples.rubber_band = Some r /\
    activity r = "Tourniquet" /\
    (1 <= List.length
            (of_class (detections Examples.names
                         (detect MoreExamples.rubber_band)
                         MoreExamples.rubber_band_masks) "rubber band"))%nat.
Proof.
  assert (Hno : touching (Some (@of_Z float binary64 0,
                                @of_Z float binary64 1)) = false)
    by (vm_compute; reflexivity).
  split; [exact Hno |]. split; [reflexivity |].
  destruct (_process_single_frame Examples.names MoreExamples.rubber_band)
    as [r |] eqn:Hr; [| vm_compute in Hr; discriminate].
  assert (Hact : activity r = "Tourniquet").
  { pose proof Hr as Hr'. vm_compute in Hr'.
    injection Hr' as <-. reflexivity. }
  exists r. split; [reflexivity |]. split; [exact Hact |].
  exact (@tourniquet_needs_a_rubber_band float binary64 Examples.names
           MoreExamples.rubber_band MoreExamples.rubber_band_masks r
           Hno eq_refl Hr Hact).
Defined.

Lemma unclear_frames_do_not_vote_witness :
  List.length ["Injection"] = List.length [@dec float binary64 9 1] /\
  aggregate (["Injection"] ++ "No clear activity" :: ["Tourniquet"; "Injection"])
            ([dec 9 1] ++ dec 3 1 :: [dec 6 1; dec 7 1])
  = aggregate (["Injection"] ++ ["Tourniquet"; "Injection"])
              ([@dec float binary64 9 1] ++ [dec 6 1; dec 7 1]).
Proof.
  split; [reflexivity |].
  apply (@unclear_frames_do_not_vote float binary64). reflexivity.
Defined.


Lemma frame_confidence_bounds_witness :
  Forall (fun c => 0 <= c <= 1)%R
    (boxes_conf (detect MoreExamples.real_rubber_band)) /\
  exists r,
    _process_single_frame Examples.names MoreExamples.real_rubber_band
    = Some r /\
    (0 <= confidence r <= 1)%R.
Proof.
  assert (Hc : Forall (fun c => 0 <= c <= 1)%R
                 (boxes_conf (detect MoreExamples.real_rubber_band)))
    by (repeat constructor; lra).
  split; [exact Hc |].
  exact (frame_confidence_bounds Examples.names
           MoreExamples.real_rubber_band Hc).
Defined.

Lemma synonyms_resolve_witness :
  In ("rubber band", ["yellow rubber band"; "rubber band"; "tourniquet"])
     NAME_SYNONYMS /\
  In "tourniquet" ["yellow rubber band"; "rubber band"; "tourniquet"] /\
  canonical (lower "tourniquet") = "rubber band" /\
  canonical "rubber band" = "rubber band".
Proof.
  assert (Hc : In ("rubber band",
                   ["yellow rubber band"; "rubber band"; "tourniquet"])
                  NAME_SYNONYMS)
    by (right; right; right; left; reflexivity).
  assert (Hs : In "tourniquet"
                  ["yellow rubber band"; "rubber band"; "tourniquet"])
    by (right; right; left; reflexivity).
  split; [exact Hc |]. split; [exact Hs |].
  exact (@synonyms_resolve_to_their_category _ _ _ Hc Hs).
Defined.

Lemma format_top_class_is_argmax_witness :
  format_model_output MoreExamples.cls_results ["a.png"; "b.png"; "c.png"]
  = Some (FormatOk MoreExamples.cls_output) /\
  Dict.get "Tourniquet" (all_class_probabilities MoreExamples.cls_output)
  = Some (top_confidence MoreExamples.cls_output) /\
  (forall cls p,
      Dict.get cls (all_class_probabilities MoreExamples.cls_output) = Some p ->
      (top_confidence MoreExamples.cls_output <? p)%py = false).
Proof.
  assert (Hf : format_model_output MoreExamples.cls_results
                 ["a.png"; "b.png"; "c.png"]
               = Some (FormatOk MoreExamples.cls_output)).
  { unfold format_model_output, MoreExamples.cls_results. simpl.
    set (a := (np_sum [1 / 4; 1 / 2] / IZR (len [1 / 4; 1 / 2]))%R).
    set (b := (np_sum [3 / 4; 1 / 2] / IZR (len [3 / 4; 1 / 2]))%R).
    assert (Hlt : Exact.ltb a b = true).
    { apply (proj2 (ltb_exact a b)). unfold a, b, np_sum, len. simpl. lra. }
    rewrite Hlt. reflexivity. }
  split; [exact Hf |].
  destruct (@format_top_class_is_argmax R exact exact_is_exact _ _ _ Hf)
    as (Hget & Hmax & _).
  split; [exact Hget | exact Hmax].
Defined.

Lemma contact_distance_at_most_one_witness :
  Forall (inside_image 40 30)
    (boxes_xyxy (detect MoreExamples.real_rubber_band)) /\
  exists o d,
    contact_score (img_diag_of MoreExamples.real_rubber_band)
      (detections Examples.names (detect MoreExamples.real_rubber_band)
         [ [1; 1; 0; 0]; [0; 1; 1; 0]; [1; 1; 1; 1]; [1; 1; 1; 0] ]%R)
      "rubber band" = Some (o, d) /\
    (d <= 1)%R.
Proof.
  assert (Hb : Forall (inside_image 40 30)
                 (boxes_xyxy (detect MoreExamples.real_rubber_band)))
    by (repeat (apply Forall_cons; [unfold inside_image; simpl; lra |]);
        apply Forall_nil).
  split; [exact Hb |].
  exact (contact_distance_at_most_one Examples.names
           MoreExamples.real_rubber_band _ "rubber band" Hb).
Defined.
